(** * A command-line movie catalog: model of [src/main.py] and its specification

    The program keeps a dictionary of movies (title -> rating, year) in
    memory, reloads it from [movies.json] at start and rewrites the file
    after every change.  This development embeds the program as state-passing
    functions over a [world] (console input, console output, disk) and
    proves the statements of the specification about it.

    Layout: the Python builtins and library calls the program relies on
    ([str.strip], [int], [float], [round], [max], [min], [sorted],
    [statistics.mean], [statistics.median], [json.load], [json.dump]) come
    first, then the values and the world, then the seven functions of
    [main.py] in source order, then the predicates of the specification, and
    last the lemmas and theorems. *)

From Stdlib Require Import ZArith List String Ascii Bool Lia Floats.
From Stdlib Require Import Sorting.Sorted Sorting.Permutation.
From stdpp Require Import base gmap strings.
Import ListNotations.

#[local] Set Warnings "-register-all,-inexact-float".

Local Open Scope string_scope.
Local Open Scope list_scope.
Local Open Scope Z_scope.

(* ================================================================= *)
(** ** Python strings: [str.strip], [int(...)], [float(...)] *)

(** Python [str] values are modelled as ASCII strings.  [is_space] is
    [str.isspace] on one ASCII character: TAB..CR, FS..US and the blank. *)
Definition is_space (c : ascii) : bool :=
  let n := Z.of_N (N_of_ascii c) in
  ((9 <=? n) && (n <=? 13)) || ((28 <=? n) && (n <=? 32)).

Fixpoint lstrip (s : string) : string :=
  match s with
  | String c r => if is_space c then lstrip r else s
  | EmptyString => EmptyString
  end.

Fixpoint rstrip (s : string) : string :=
  match s with
  | EmptyString => EmptyString
  | String c r =>
      match rstrip r with
      | EmptyString => if is_space c then EmptyString else String c EmptyString
      | r' => String c r'
      end
  end.

(** [s.strip()] *)
Definition strip (s : string) : string := rstrip (lstrip s).

(** [not s] for a string: the empty string is false. *)
Definition str_is_empty (s : string) : bool :=
  match s with EmptyString => true | _ => false end.

Definition is_digit (c : ascii) : bool :=
  let n := Z.of_N (N_of_ascii c) in (48 <=? n) && (n <=? 57).

Definition digit_value (c : ascii) : Z := Z.of_N (N_of_ascii c) - 48.

(** The rest of a [digitpart] (digits, single underscores between digits):
    the value read so far, how many digits were read, and the unread rest. *)
Fixpoint digitpart_rest (acc : Z) (n : Z) (s : string) : Z * Z * string :=
  match s with
  | String c r =>
      if is_digit c then digitpart_rest (10 * acc + digit_value c) (n + 1) r
      else if Ascii.eqb c "_" then
        match r with
        | String c' r' =>
            if is_digit c'
            then digitpart_rest (10 * acc + digit_value c') (n + 1) r'
            else (acc, n, s)
        | EmptyString => (acc, n, s)
        end
      else (acc, n, s)
  | EmptyString => (acc, n, s)
  end.

(** [digit (["_"] digit)*]; [None] when [s] does not start with a digit. *)
Definition digitpart (s : string) : option (Z * Z * string) :=
  match s with
  | String c r =>
      if is_digit c then Some (digitpart_rest (digit_value c) 1 r) else None
  | EmptyString => None
  end.

(** An optional sign: [true] for a minus. *)
Definition read_sign (s : string) : bool * string :=
  match s with
  | String c r =>
      if Ascii.eqb c "-" then (true, r)
      else if Ascii.eqb c "+" then (false, r)
      else (false, s)
  | EmptyString => (false, s)
  end.

(** [int(s)] for a string, base ten; [None] stands for [ValueError].  No
    bound is put on the number of digits (recent Python versions refuse more
    than 4300 of them by default). *)
Definition py_int (s : string) : option Z :=
  let (neg, body) := read_sign (strip s) in
  match digitpart body with
  | Some (v, _, EmptyString) => Some (if neg then - v else v)
  | _ => None
  end.

(* ================================================================= *)
(** ** Python floats: binary64 *)

(** Python's [float] is IEEE-754 binary64, Rocq's primitive [float].
    [nearest neg num den e] is the binary64 value nearest to
    [(num / den) * 2^e] (ties to even) with the sign [neg]: the correctly
    rounded division that Python's [int / int] and [float(str)] perform. *)
Definition nearest (neg : bool) (num den : positive) (e : Z) : float :=
  SF2Prim (SFdiv prec emax (S754_finite neg num e) (S754_finite false den 0)).

Definition signed_zero (neg : bool) : float :=
  if neg then neg_zero else zero.

(** The binary64 value nearest to [(-1)^neg * num / den * 2^e] for
    [num >= 0]. *)
Definition nearest_Z (neg : bool) (num : Z) (den : positive) (e : Z) : float :=
  match num with
  | Zpos p => nearest neg p den e
  | _ => signed_zero neg
  end.

(** A finite float in units of [2^-1074] (every binary64 value is a whole
    number of them); [None] for infinities and NaN. *)
Definition units (x : float) : option Z :=
  match Prim2SF x with
  | S754_zero _ => Some 0
  | S754_finite s m e => Some (cond_Zopp s (Zpos m * 2 ^ (e + 1074)))
  | _ => None
  end.

Definition ascii_lower (c : ascii) : ascii :=
  let n := N_of_ascii c in
  if ((65 <=? n) && (n <=? 90))%N then ascii_of_N (n + 32) else c.

Fixpoint str_lower (s : string) : string :=
  match s with
  | String c r => String (ascii_lower c) (str_lower r)
  | EmptyString => EmptyString
  end.

(** The decimal [m * 10^e10] as a float. *)
Definition float_of_decimal (neg : bool) (m e10 : Z) : float :=
  if 0 <=? e10 then nearest_Z neg (m * 10 ^ e10) 1 0
  else nearest_Z neg m (Z.to_pos (10 ^ (- e10))) 0.

(** The optional exponent of a float literal; the string must end there. *)
Definition read_exponent (s : string) : option Z :=
  match s with
  | EmptyString => Some 0
  | String c r =>
      if Ascii.eqb (ascii_lower c) "e" then
        let (neg, body) := read_sign r in
        match digitpart body with
        | Some (v, _, EmptyString) => Some (if neg then - v else v)
        | _ => None
        end
      else None
  end.

(** [[digitpart] "." digitpart | digitpart ["."]]: the digits read as one
    integer, the number of digits after the point, and the rest. *)
Definition read_number (s : string) : option (Z * Z * string) :=
  match digitpart s with
  | Some (ip, _, String c r) =>
      if Ascii.eqb c "." then
        match digitpart r with
        | Some (fp, nf, r') => Some (ip * 10 ^ nf + fp, nf, r')
        | None => Some (ip, 0, r)
        end
      else Some (ip, 0, String c r)
  | Some (ip, _, EmptyString) => Some (ip, 0, EmptyString)
  | None =>
      match s with
      | String c r =>
          if Ascii.eqb c "." then
            match digitpart r with
            | Some (fp, nf, r') => Some (fp, nf, r')
            | None => None
            end
          else None
      | EmptyString => None
      end
  end.

(** [float(s)] for a string; [None] stands for [ValueError]. *)
Definition py_float (s : string) : option float :=
  let (neg, body) := read_sign (strip s) in
  let low := str_lower body in
  if String.eqb low "inf" || String.eqb low "infinity"
  then Some (if neg then neg_infinity else infinity)
  else if String.eqb low "nan" then Some nan
  else
    match read_number body with
    | Some (m, nf, r) =>
        match read_exponent r with
        | Some e => Some (float_of_decimal neg m (e - nf))
        | None => None
        end
    | None => None
    end.

(** [round(x, ndigits)] for a float and [ndigits >= 0]: the exact value of
    [x] rounded half-even to [ndigits] decimals, then the nearest float.
    Infinities and NaN round to themselves. *)
Definition py_round (x : float) (ndigits : Z) : float :=
  match Prim2SF x with
  | S754_finite s m e =>
      let p := 10 ^ ndigits in
      let num := if 0 <=? e then Zpos m * 2 ^ e * p else Zpos m * p in
      let den := if 0 <=? e then 1 else 2 ^ (- e) in
      let (q, r) := Z.div_eucl num den in
      let n :=
        match 2 * r ?= den with
        | Lt => q
        | Gt => q + 1
        | Eq => if Z.even q then q else q + 1
        end in
      nearest_Z s n (Z.to_pos p) 0
  | _ => x
  end.

(** [statistics.mean] on floats.  The library sums the exact values as
    fractions and converts the quotient back with one correctly rounded
    division; infinities and NaN are summed apart with float addition and
    that sum is divided by the count. *)
Definition is_nonfinite (x : float) : bool := is_nan x || is_infinity x.

Definition float_of_Z (n : Z) : float :=
  SF2Prim (binary_normalize prec emax n 0 false).

Definition exact_total (data : list float) : Z :=
  fold_left (fun acc x => acc + default 0 (units x)) data 0.

Definition mean_floats (data : list float) : float :=
  let n := Z.of_nat (length data) in
  match List.filter is_nonfinite data with
  | x :: xs => PrimFloat.div (fold_left PrimFloat.add xs x) (float_of_Z n)
  | [] =>
      let total := exact_total data in
      nearest_Z (total <? 0) (Z.abs total) (Z.to_pos n) (-1074)
  end.

(** [sorted(data)] on floats: a stable sort that only asks [x < y], as
    [list.sort] does.  Every stable sort returns this list when no NaN is
    present (then [<] is a strict weak order). *)
Fixpoint insert_sorted (x : float) (l : list float) : list float :=
  match l with
  | [] => [x]
  | y :: r => if PrimFloat.ltb x y then x :: l else y :: insert_sorted x r
  end.

Definition sorted (data : list float) : list float :=
  fold_left (fun acc x => insert_sorted x acc) data [].

(** [statistics.median] after its empty-data check:
    [data[n // 2]] for odd [n], [(data[i - 1] + data[i]) / 2] with
    [i = n // 2] for even [n]. *)
Definition median_floats (data : list float) : float :=
  let data := sorted data in
  let n := length data in
  if Nat.odd n then nth (n / 2)%nat data nan
  else
    let i := (n / 2)%nat in
    PrimFloat.div (PrimFloat.add (nth (i - 1)%nat data nan) (nth i data nan)) 2.

(** [max(data)] and [min(data)]: the first item, replaced by each later
    item that compares greater (smaller). *)
Definition max_floats (first : float) (rest : list float) : float :=
  fold_left (fun m item => if PrimFloat.ltb m item then item else m) rest first.

Definition min_floats (first : float) (rest : list float) : float :=
  fold_left (fun m item => if PrimFloat.ltb item m then item else m) rest first.

(** [sep.join(items)] *)
Fixpoint join (sep : string) (items : list string) : string :=
  match items with
  | [] => ""
  | [s] => s
  | s :: r => s ++ sep ++ join sep r
  end.

(* ================================================================= *)
(** ** Values, dictionaries, JSON documents *)

(** The Python values [json.load] can return.  A [dict] keeps its keys in
    insertion order; its keys are strings here. *)
Inductive pyval : Type :=
| PNone
| PBool (b : bool)
| PInt (z : Z)
| PFloat (x : float)
| PStr (s : string)
| PList (l : list pyval)
| PDict (d : list (string * pyval)).

Abbreviation dict := (list (string * pyval)).

(** [d.get(k)]: [None] when the key is absent. *)
Fixpoint dict_get (d : dict) (k : string) : option pyval :=
  match d with
  | [] => None
  | (k', v) :: r => if String.eqb k' k then Some v else dict_get r k
  end.

(** [k in d] *)
Definition dict_contains (d : dict) (k : string) : bool :=
  match dict_get d k with Some _ => true | None => false end.

(** [d[k] = v]: an existing key keeps its place, a new key goes last. *)
Fixpoint dict_set (d : dict) (k : string) (v : pyval) : dict :=
  match d with
  | [] => [(k, v)]
  | (k', v') :: r =>
      if String.eqb k' k then (k', v) :: r else (k', v') :: dict_set r k v
  end.

(** [del d[k]] for a key that is present. *)
Definition dict_del (d : dict) (k : string) : dict :=
  List.filter (fun kv => negb (String.eqb (fst kv) k)) d.

(** [not d] *)
Definition dict_is_empty (d : dict) : bool :=
  match d with [] => true | _ => false end.

(** The document a JSON text denotes.  An object lists its members as the
    text does, repeated names included; [JFloat] is a number written with a
    fraction or an exponent, or one of [NaN], [Infinity], [-Infinity], which
    Python's [json] reads and writes. *)
Inductive json : Type :=
| JNull
| JBool (b : bool)
| JInt (z : Z)
| JFloat (x : float)
| JString (s : string)
| JArray (l : list json)
| JObject (members : list (string * json)).

(** [dict(pairs)]: later pairs overwrite earlier ones with the same key. *)
Definition dict_of_pairs (pairs : list (string * pyval)) : dict :=
  fold_left (fun d kv => dict_set d (fst kv) (snd kv)) pairs [].

(** The value [json.load] builds from a document. *)
Fixpoint decode (j : json) : pyval :=
  match j with
  | JNull => PNone
  | JBool b => PBool b
  | JInt z => PInt z
  | JFloat x => PFloat x
  | JString s => PStr s
  | JArray l => PList (List.map decode l)
  | JObject ms =>
      PDict (dict_of_pairs (List.map (fun kv => (fst kv, decode (snd kv))) ms))
  end.

(** The document [json.dump] writes for a value. *)
Fixpoint encode (v : pyval) : json :=
  match v with
  | PNone => JNull
  | PBool b => JBool b
  | PInt z => JInt z
  | PFloat x => JFloat x
  | PStr s => JString s
  | PList l => JArray (List.map encode l)
  | PDict d => JObject (List.map (fun kv => (fst kv, encode (snd kv))) d)
  end.

(* ================================================================= *)
(** ** The world: console and disk *)

(** One piece of a printed line: literal text, or a value formatted by an
    f-string ([str(v)]). *)
Inductive fragment : Type :=
| Text (s : string)
| Value (v : pyval).

(** What the program writes to the console: the prompt of an [input] call,
    or a line written by [print]. *)
Inductive event : Type :=
| Prompt (s : string)
| Print (line : list fragment).

(** What a file holds: text that [json.load] rejects, or a JSON document. *)
Inductive content : Type :=
| Garbage
| Document (j : json).

(** A file; [denied] files can be neither read nor written by the
    process. *)
Record file : Type := File { denied : bool; holds : content }.

(** [stdin]: the lines the user will type, one per [input] call;
    [stdout]: everything written so far, oldest first. *)
Record world : Type := World {
  stdin : list string;
  stdout : list event;
  disk : gmap string file
}.

(** Python exceptions the program can meet, and two markers of the model:
    [Unmodelled] for library behaviour outside the modelled fragment
    (statistics over ratings that are integers or booleans), [OutOfFuel]
    for a loop cut short (which never happens, see
    [main_never_out_of_fuel]). *)
Inductive exn : Type :=
| EOFError
| ValueError
| JSONDecodeError
| FileNotFoundError
| PermissionError
| KeyError (key : string)
| TypeError
| StatisticsError
| Unmodelled
| OutOfFuel.

Inductive outcome (A : Type) : Type :=
| Returns (a : A) (w : world)
| Raises (e : exn) (w : world).
Arguments Returns {A} a w.
Arguments Raises {A} e w.

(** A computation: from the world before to a result or an exception, with
    the world after. *)
Definition io (A : Type) : Type := world -> outcome A.

Definition ret {A} (a : A) : io A := fun w => Returns a w.

Definition raise {A} (e : exn) : io A := fun w => Raises e w.

Definition bind {A B} (c : io A) (k : A -> io B) : io B :=
  fun w =>
    match c w with
    | Returns a w' => k a w'
    | Raises e w' => Raises e w'
    end.

Declare Scope io_scope.
Delimit Scope io_scope with io.
Notation "x ← c ; k" := (bind c (fun x => k))
  (at level 20, c at level 100, k at level 200, only parsing) : io_scope.
Notation "c ;; k" := (bind c (fun _ => k))
  (at level 100, k at level 200, only parsing, right associativity) : io_scope.
Local Open Scope io_scope.

(** [try: body except <classes>: handler] *)
Definition try_except {A} (body : io A) (catches : exn -> bool)
    (handler : io A) : io A :=
  fun w =>
    match body w with
    | Returns a w' => Returns a w'
    | Raises e w' => if catches e then handler w' else Raises e w'
    end.

(** [except ValueError]: [json.JSONDecodeError] is a subclass. *)
Definition is_ValueError (e : exn) : bool :=
  match e with ValueError | JSONDecodeError => true | _ => false end.

(** [except IOError]: an alias of [OSError]. *)
Definition is_IOError (e : exn) : bool :=
  match e with FileNotFoundError | PermissionError => true | _ => false end.

(** [except (FileNotFoundError, json.JSONDecodeError)] *)
Definition is_FileNotFound_or_JSONDecode (e : exn) : bool :=
  match e with FileNotFoundError | JSONDecodeError => true | _ => false end.

Definition emit (e : event) (w : world) : world :=
  World (stdin w) (stdout w ++ [e]) (disk w).

(** [print(line)] *)
Definition print (line : list fragment) : io unit :=
  fun w => Returns tt (emit (Print line) w).

(** [input(prompt)]: writes the prompt, then reads a line; [EOFError] at the
    end of the input. *)
Definition input (prompt : string) : io string :=
  fun w =>
    match stdin w with
    | [] => Raises EOFError (emit (Prompt prompt) w)
    | line :: rest =>
        Returns line (World rest (stdout w ++ [Prompt prompt]) (disk w))
    end.

(** [with open(file_name, 'r') as file: json.load(file)] *)
Definition open_and_load (file_name : string) : io pyval :=
  fun w =>
    match disk w !! file_name with
    | None => Raises FileNotFoundError w
    | Some f =>
        if denied f then Raises PermissionError w
        else match holds f with
             | Garbage => Raises JSONDecodeError w
             | Document j => Returns (decode j) w
             end
    end.

(** [with open(file_name, 'w') as file: json.dump(v, file, indent=4)]:
    the file is created or overwritten as a whole. *)
Definition open_and_dump (file_name : string) (v : pyval) : io unit :=
  fun w =>
    match disk w !! file_name with
    | Some f =>
        if denied f then Raises PermissionError w
        else Returns tt (World (stdin w) (stdout w)
                           (<[file_name := File false (Document (encode v))]> (disk w)))
    | None =>
        Returns tt (World (stdin w) (stdout w)
                      (<[file_name := File false (Document (encode v))]> (disk w)))
    end.

(** [int(s)] and [float(s)] as computations. *)
Definition int_of (s : string) : io Z :=
  match py_int s with Some n => ret n | None => raise ValueError end.

Definition float_of (s : string) : io float :=
  match py_float s with Some x => ret x | None => raise ValueError end.

(** [v[key]] for a string key. *)
Definition subscript (v : pyval) (key : string) : io pyval :=
  match v with
  | PDict d =>
      match dict_get d key with
      | Some x => ret x
      | None => raise (KeyError key)
      end
  | _ => raise TypeError
  end.

(** A [for] loop over a list, collecting results or not. *)
Fixpoint map_io {A B} (f : A -> io B) (l : list A) : io (list B) :=
  match l with
  | [] => ret []
  | a :: r => b ← f a; bs ← map_io f r; ret (b :: bs)
  end.

Fixpoint for_each {A} (f : A -> io unit) (l : list A) : io unit :=
  match l with
  | [] => ret tt
  | a :: r => f a;; for_each f r
  end.

(** A loop that reads input runs with one more unit of fuel than there
    are lines left: each turn reads a line or ends. *)
Definition with_fuel {A} (body : nat -> io A) : io A :=
  fun w => body (S (length (stdin w))) w.

(* ================================================================= *)
(** ** The program, in source order *)

Definition newline : string := String (ascii_of_nat 10) EmptyString.

Definition FILE_NAME : string := "movies.json".

(** [load_movies(file_name)] *)
Definition load_movies (file_name : string) : io dict :=
  try_except
    (movies ← open_and_load file_name;
     match movies with
     | PDict d => ret d
     | _ =>
         print [Text "Data format error. Resetting to an empty dictionary."];;
         ret []
     end)
    is_FileNotFound_or_JSONDecode
    (ret []).

(** [save_movies(file_name, movies)] *)
Definition save_movies (file_name : string) (movies : dict) : io unit :=
  try_except
    (open_and_dump file_name (PDict movies))
    is_IOError
    (print [Text "Error saving movies. Please try again."]).

(** The [while not title] loop of [add_movie]. *)
Fixpoint title_loop (fuel : nat) (title : string) : io string :=
  if str_is_empty title then
    match fuel with
    | O => raise OutOfFuel
    | S fuel' =>
        line ← input "Title cannot be empty. Enter movie title: ";
        title_loop fuel' (strip line)
    end
  else ret title.

(** [add_movie(movies)]; the result is the dictionary after the call (the
    source changes it in place).  The two [try] blocks yield [None] where
    the source returns from its handler. *)
Definition add_movie (movies : dict) : io dict :=
  line ← input "Enter movie title: ";
  title ← with_fuel (fun fuel => title_loop fuel (strip line));
  checked_rating ←
    try_except
      (line ← input "Enter movie rating (0.0 - 10.0): ";
       rating ← float_of line;
       if negb (PrimFloat.leb 0 rating && PrimFloat.leb rating 10)
       then raise ValueError
       else ret (Some rating))
      is_ValueError
      (print [Text "Invalid rating. Please enter a number between 0.0 and 10.0."];;
       ret None);
  match checked_rating with
  | None => ret movies
  | Some rating =>
      checked_year ←
        try_except
          (line ← input "Enter movie release year: ";
           year ← int_of line;
           if (year <? 1800) || (year >? 2024)
           then raise ValueError
           else ret (Some year))
          is_ValueError
          (print [Text "Invalid year. Please enter a valid year."];;
           ret None);
      match checked_year with
      | None => ret movies
      | Some year =>
          let movies :=
            dict_set movies title
              (PDict [("rating", PFloat rating); ("year", PInt year)]) in
          save_movies FILE_NAME movies;;
          print [Text "Movie '"; Text title; Text "' added successfully!"];;
          ret movies
      end
  end.

(** [list_movies(movies)] *)
Definition list_movies (movies : dict) : io unit :=
  if dict_is_empty movies then print [Text "No movies found."]
  else
    print [Text (newline ++ "Movies in your collection:")];;
    for_each
      (fun item =>
         let title := fst item in
         let details := snd item in
         rating ← subscript details "rating";
         year ← subscript details "year";
         print [Text "  "; Text title; Text " - Rating: "; Value rating;
                Text ", Year: "; Value year])
      movies.

(** [delete_movie(movies)]; the result is the dictionary after the call. *)
Definition delete_movie (movies : dict) : io dict :=
  line ← input "Enter movie title to delete: ";
  let title := strip line in
  if dict_contains movies title then
    let movies := dict_del movies title in
    save_movies FILE_NAME movies;;
    print [Text "Movie '"; Text title; Text "' deleted successfully!"];;
    ret movies
  else
    print [Text "Movie '"; Text title; Text "' not found."];;
    ret movies.

(** The library calls of [display_statistics] on a list of ratings.  They
    are modelled on floats, the only ratings [add_movie] stores;
    [statistics.mean], which runs first, raises [TypeError] for an item
    that is not a number. *)
Definition is_number (v : pyval) : bool :=
  match v with PBool _ | PInt _ | PFloat _ => true | _ => false end.

Definition as_float (v : pyval) : io float :=
  match v with PFloat x => ret x | _ => raise Unmodelled end.

Definition statistics_mean (data : list pyval) : io float :=
  if forallb is_number data then
    xs ← map_io as_float data;
    match xs with
    | [] => raise StatisticsError
    | _ => ret (mean_floats xs)
    end
  else raise TypeError.

Definition statistics_median (data : list pyval) : io float :=
  xs ← map_io as_float data;
  match xs with
  | [] => raise StatisticsError
  | _ => ret (median_floats xs)
  end.

Definition py_max (data : list pyval) : io float :=
  xs ← map_io as_float data;
  match xs with
  | [] => raise ValueError
  | first :: rest => ret (max_floats first rest)
  end.

Definition py_min (data : list pyval) : io float :=
  xs ← map_io as_float data;
  match xs with
  | [] => raise ValueError
  | first :: rest => ret (min_floats first rest)
  end.

(** [[title for title, details in movies.items() if details['rating'] == r]] *)
Fixpoint titles_rated (r : float) (items : dict) : io (list string) :=
  match items with
  | [] => ret []
  | (title, details) :: rest =>
      rating ← subscript details "rating";
      x ← as_float rating;
      titles ← titles_rated r rest;
      ret (if PrimFloat.eqb x r then title :: titles else titles)
  end.

(** [display_statistics(movies)] *)
Definition display_statistics (movies : dict) : io unit :=
  if dict_is_empty movies then print [Text "No movies found."]
  else
    ratings ← map_io (fun item => subscript (snd item) "rating") movies;
    match ratings with
    | _ :: _ =>
        mean ← statistics_mean ratings;
        let avg_rating := py_round mean 1 in
        median ← statistics_median ratings;
        let median_rating := py_round median 1 in
        max_rating ← py_max ratings;
        min_rating ← py_min ratings;
        best_movies ← titles_rated max_rating movies;
        worst_movies ← titles_rated min_rating movies;
        print [Text "Average rating: "; Value (PFloat avg_rating)];;
        print [Text "Median rating: "; Value (PFloat median_rating)];;
        print [Text "Best movies ("; Value (PFloat max_rating); Text "): ";
                  Text (join ", " best_movies)];;
        print [Text "Worst movies ("; Value (PFloat min_rating); Text "): ";
               Text (join ", " worst_movies)]
    | [] => print [Text "No ratings available to calculate statistics."]
    end.

(** How one pass of the menu loop ends: [break], or on to the next pass
    with the dictionary as it is now. *)
Inductive pass : Type :=
| Break
| Continue (movies : dict).

(** The body of [while True] in [main]. *)
Definition menu_pass (movies : dict) : io pass :=
  print [Text (newline ++ "Menu:")];;
  print [Text "0. Exit"];;
  print [Text "1. List movies"];;
  print [Text "2. Add movie"];;
  print [Text "3. Delete movie"];;
  print [Text "4. Show statistics"];;
  selection ←
    try_except
      (line ← input (newline ++ "Choose an option: ");
       choice ← int_of line;
       ret (Some choice))
      is_ValueError
      (print [Text "Invalid input. Please enter a number between 0 and 4."];;
       ret None);
  match selection with
  | None => ret (Continue movies)
  | Some choice =>
      if choice =? 0 then
        print [Text "Goodbye! Movies App Reloaded."];;
        ret Break
      else if choice =? 1 then
        list_movies movies;; ret (Continue movies)
      else if choice =? 2 then
        movies ← add_movie movies; ret (Continue movies)
      else if choice =? 3 then
        movies ← delete_movie movies; ret (Continue movies)
      else if choice =? 4 then
        display_statistics movies;; ret (Continue movies)
      else
        print [Text "Invalid choice. Please select a valid option."];;
        ret (Continue movies)
  end.

Fixpoint menu_loop (fuel : nat) (movies : dict) : io unit :=
  match fuel with
  | O => raise OutOfFuel
  | S fuel' =>
      next ← menu_pass movies;
      match next with
      | Break => ret tt
      | Continue movies => menu_loop fuel' movies
      end
  end.

(** [main()] *)
Definition main : io unit :=
  movies ← load_movies FILE_NAME;
  with_fuel (fun fuel => menu_loop fuel movies).

(* ================================================================= *)
(** ** The notions of the specification *)

(** A movie record as [add_movie] stores it. *)
Definition movie (rating : float) (year : Z) : pyval :=
  PDict [("rating", PFloat rating); ("year", PInt year)].

(** [0.0 <= rating <= 10.0] and [1800 <= year <= 2024]. *)
Definition rating_in_range (rating : float) : bool :=
  PrimFloat.leb 0 rating && PrimFloat.leb rating 10.

Definition year_in_range (year : Z) : bool :=
  (1800 <=? year) && (year <=? 2024).

(** The entry is a movie record whose rating and year are in range. *)
Definition movie_ok (v : pyval) : Prop :=
  exists rating year,
    v = movie rating year /\
    rating_in_range rating = true /\ year_in_range year = true.

(** A Python dictionary has each key once. *)
Definition unique_titles (movies : dict) : Prop :=
  List.NoDup (List.map fst movies).

(** The invariants of the data model: ratings and years in range, titles
    unique and non-empty. *)
Definition catalog_ok (movies : dict) : Prop :=
  unique_titles movies /\
  Forall (fun item => fst item <> "" /\ movie_ok (snd item)) movies.

(** A rating line that [add_movie] refuses: not a number, or a number
    outside [0.0, 10.0] (NaN included: it compares false with everything). *)
Definition rating_refused (line : string) : Prop :=
  match py_float line with
  | None => True
  | Some rating => rating_in_range rating = false
  end.

(** A year line that [add_movie] refuses. *)
Definition year_refused (line : string) : Prop :=
  match py_int line with
  | None => True
  | Some year => year_in_range year = false
  end.


(** The file cannot be used as a catalog: it is missing, it is not JSON, or
    its document is not an object. *)
Inductive unusable : option file -> Prop :=
| unusable_missing : unusable None
| unusable_garbage : unusable (Some (File false Garbage))
| unusable_not_a_mapping j :
    (forall d, decode j <> PDict d) ->
    unusable (Some (File false (Document j))).

(** The process may write the file: it does not exist yet, or it is not
    denied. *)
Definition writable (w : world) (file_name : string) : Prop :=
  forall f, disk w !! file_name = Some f -> denied f = false.

(** The float rating of an entry, if it has one. *)
Definition rating_of (details : pyval) : option float :=
  match details with
  | PDict d =>
      match dict_get d "rating" with
      | Some (PFloat x) => Some x
      | _ => None
      end
  | _ => None
  end.

(** The ratings of a catalog in iteration order, when they are all
    floats. *)
Fixpoint float_ratings (movies : dict) : option (list float) :=
  match movies with
  | [] => Some []
  | (_, details) :: rest =>
      match rating_of details, float_ratings rest with
      | Some x, Some xs => Some (x :: xs)
      | _, _ => None
      end
  end.

(** The titles whose rating compares equal ([==]) to [r], in iteration
    order. *)
Definition titles_with_rating (r : float) (movies : dict) : list string :=
  List.map fst
    (List.filter
       (fun item =>
          match rating_of (snd item) with
          | Some x => PrimFloat.eqb x r
          | None => false
          end)
       movies).

Definition not_nan (x : float) : Prop := PrimFloat.eqb x x = true.




(** The six lines of the menu. *)
Definition menu_lines : list event :=
  [Print [Text (newline ++ "Menu:")];
   Print [Text "0. Exit"];
   Print [Text "1. List movies"];
   Print [Text "2. Add movie"];
   Print [Text "3. Delete movie"];
   Print [Text "4. Show statistics"]].

(** The operations that change the catalog, and a run of several of them
    one after the other. *)
Inductive operation : Type :=
| Add
| Delete.

Definition perform (op : operation) (movies : dict) : io dict :=
  match op with
  | Add => add_movie movies
  | Delete => delete_movie movies
  end.

Fixpoint perform_all (ops : list operation) (movies : dict) : io dict :=
  match ops with
  | [] => ret movies
  | op :: rest => movies ← perform op movies; perform_all rest movies
  end.

(** [add_movie] once it has a title: the rating, the year, the update. *)
Definition add_movie_rated (movies : dict) (title : string) : io dict :=
  checked_rating ←
    try_except
      (line ← input "Enter movie rating (0.0 - 10.0): ";
       rating ← float_of line;
       if negb (PrimFloat.leb 0 rating && PrimFloat.leb rating 10)
       then raise ValueError
       else ret (Some rating))
      is_ValueError
      (print [Text "Invalid rating. Please enter a number between 0.0 and 10.0."];;
       ret None);
  match checked_rating with
  | None => ret movies
  | Some rating =>
      checked_year ←
        try_except
          (line ← input "Enter movie release year: ";
           year ← int_of line;
           if (year <? 1800) || (year >? 2024)
           then raise ValueError
           else ret (Some year))
          is_ValueError
          (print [Text "Invalid year. Please enter a valid year."];;
           ret None);
      match checked_year with
      | None => ret movies
      | Some year =>
          let movies :=
            dict_set movies title
              (PDict [("rating", PFloat rating); ("year", PInt year)]) in
          save_movies FILE_NAME movies;;
          print [Text "Movie '"; Text title; Text "' added successfully!"];;
          ret movies
      end
  end.

(** [w'] comes after [w]: its input is what is left of the input of [w]
    once some lines have been read. *)
Definition follows (w w' : world) : Prop :=
  exists read, stdin w = read ++ stdin w'.

(** A small program logic.  [behaves c post exc]: run from any world, [c]
    either returns a result that satisfies [post], or raises [EOFError] with
    the input used up, or raises an exception that [exc] allows; in each
    case it only reads input from the front. *)
Definition outcome_ok {A} (post : A -> Prop) (exc : exn -> Prop) (w : world)
    (r : outcome A) : Prop :=
  match r with
  | Returns a w' => follows w w' /\ post a
  | Raises e w' => follows w w' /\ ((e = EOFError /\ stdin w' = []) \/ exc e)
  end.

Definition behaves {A} (c : io A) (post : A -> Prop) (exc : exn -> Prop) : Prop :=
  forall w, outcome_ok post exc w (c w).

Definition anything {A} (a : A) : Prop := True.

Definition no_exception (e : exn) : Prop := False.

(** Every exception but the marker of a loop cut short. *)
Definition python_exception (e : exn) : Prop := e <> OutOfFuel.

(** The prompts and diagnostics of [add_movie]. *)
Definition title_prompt : event := Prompt "Enter movie title: ".
Definition rating_prompt : event := Prompt "Enter movie rating (0.0 - 10.0): ".
Definition year_prompt : event := Prompt "Enter movie release year: ".
Definition rating_diagnostic : event :=
  Print [Text "Invalid rating. Please enter a number between 0.0 and 10.0."].
Definition year_diagnostic : event :=
  Print [Text "Invalid year. Please enter a valid year."].

(** The menu loop's prompt and two diagnostics. *)
Definition selection_prompt : event := Prompt (newline ++ "Choose an option: ").
Definition selection_diagnostic : event :=
  Print [Text "Invalid input. Please enter a number between 0 and 4."].

(** The [if]/[elif] chain of [main] for an integer selection. *)
Definition dispatch (movies : dict) (choice : Z) : io pass :=
  if choice =? 0 then
    print [Text "Goodbye! Movies App Reloaded."];;
    ret Break
  else if choice =? 1 then
    list_movies movies;; ret (Continue movies)
  else if choice =? 2 then
    movies ← add_movie movies; ret (Continue movies)
  else if choice =? 3 then
    movies ← delete_movie movies; ret (Continue movies)
  else if choice =? 4 then
    display_statistics movies;; ret (Continue movies)
  else
    print [Text "Invalid choice. Please select a valid option."];;
    ret (Continue movies).

(** The menu loop as [main] runs it. *)
Definition run_menu (movies : dict) : io unit :=
  with_fuel (fun fuel => menu_loop fuel movies).

(** Example worlds and catalogs. *)
Definition empty_world (lines : list string) : world := World lines [] ∅.

Definition world_with (lines : list string) (j : json) : world :=
  World lines [] {[ FILE_NAME := File false (Document j) ]}.

Definition three_movies (y1 y2 y3 : pyval) : dict :=
  [("A", PDict [("rating", PFloat 9); ("year", y1)]);
   ("B", PDict [("rating", PFloat 7); ("year", y2)]);
   ("C", PDict [("rating", PFloat 9); ("year", y3)])].


(* ================================================================= *)
(** ** Further notions: listing, frames, nested dictionaries *)

(** The world a computation leaves behind, whether it returns or raises. *)
Definition world_after {A} (r : outcome A) : world :=
  match r with
  | Returns _ w => w
  | Raises _ w => w
  end.

(** [c] takes every world to one that [R] relates to it. *)
Definition keeps (R : world -> world -> Prop) {A} (c : io A) : Prop :=
  forall w, R w (world_after (c w)).

(** No input was read and no file was written. *)
Definition quiet (w w' : world) : Prop :=
  stdin w' = stdin w /\ disk w' = disk w.

(** Every file but [movies.json] is as it was. *)
Definition untouched_elsewhere (w w' : world) : Prop :=
  forall name, name <> FILE_NAME -> disk w' !! name = disk w !! name.

(** [details] is a dictionary that has a rating and a year (of any kind). *)
Definition has_fields (details rating year : pyval) : Prop :=
  exists d,
    details = PDict d /\
    dict_get d "rating" = Some rating /\ dict_get d "year" = Some year.

(** The entry is a dictionary with this rating (of any kind). *)
Definition rated (item : string * pyval) (rating : pyval) : Prop :=
  exists d, snd item = PDict d /\ dict_get d "rating" = Some rating.

(** A row of the listing: title, rating, year. *)
Definition listed (item : string * pyval) (row : string * pyval * pyval) : Prop :=
  fst item = fst (fst row) /\ has_fields (snd item) (snd (fst row)) (snd row).

(** The line [list_movies] prints for a row, and its heading. *)
Definition row_line (row : string * pyval * pyval) : event :=
  Print [Text "  "; Text (fst (fst row)); Text " - Rating: ";
         Value (snd (fst row)); Text ", Year: "; Value (snd row)].

Definition listing_heading : event :=
  Print [Text (newline ++ "Movies in your collection:")].

(** The four lines of [display_statistics]. *)
Definition statistics_lines (average median highest lowest : float)
    (best worst : list string) : list event :=
  [Print [Text "Average rating: "; Value (PFloat average)];
   Print [Text "Median rating: "; Value (PFloat median)];
   Print [Text "Best movies ("; Value (PFloat highest); Text "): ";
          Text (join ", " best)];
   Print [Text "Worst movies ("; Value (PFloat lowest); Text "): ";
          Text (join ", " worst)]].


Definition added_message (title : string) : event :=
  Print [Text "Movie '"; Text title; Text "' added successfully!"].

Definition deleted_message (title : string) : event :=
  Print [Text "Movie '"; Text title; Text "' deleted successfully!"].

(** Every dictionary inside the value, at any depth, has each key once:
    the values Python can hold. *)
Inductive well_keyed : pyval -> Prop :=
| wk_none : well_keyed PNone
| wk_bool b : well_keyed (PBool b)
| wk_int z : well_keyed (PInt z)
| wk_float x : well_keyed (PFloat x)
| wk_str s : well_keyed (PStr s)
| wk_list l : Forall well_keyed l -> well_keyed (PList l)
| wk_dict d :
    List.NoDup (List.map fst d) ->
    Forall (fun kv => well_keyed (snd kv)) d ->
    well_keyed (PDict d).

(** The file on disk, read now, gives this catalog. *)
Definition mirrored (movies : dict) (w : world) : Prop :=
  exists w', load_movies FILE_NAME w = Returns movies w'.

(** The disk after [save_movies(file_name, movies)]: the file holds the
    document of the catalog, unless the process may not write it. *)
Definition disk_after_save (file_name : string) (movies : dict)
    (d : gmap string file) : gmap string file :=
  match d !! file_name with
  | Some f =>
      if denied f then d
      else <[file_name := File false (Document (encode (PDict movies)))]> d
  | None => <[file_name := File false (Document (encode (PDict movies)))]> d
  end.
(* ================================================================= *)
(** ** Running computations *)

Lemma add_movie_unfold (movies : dict) :
  add_movie movies =
  (line ← input "Enter movie title: ";
   title ← with_fuel (fun fuel => title_loop fuel (strip line));
   add_movie_rated movies title).
Proof. reflexivity. Qed.

Lemma main_unfold :
  main = (movies ← load_movies FILE_NAME; run_menu movies).
Proof. reflexivity. Qed.

Lemma bind_returns {A B} (c : io A) (k : A -> io B) w a w' :
  c w = Returns a w' -> bind c k w = k a w'.
Proof. unfold bind. now intros ->. Qed.

Lemma bind_raises {A B} (c : io A) (k : A -> io B) w e w' :
  c w = Raises e w' -> bind c k w = Raises e w'.
Proof. unfold bind. now intros ->. Qed.

Lemma emit_app (out : list event) (e : event) (ins : list string) d :
  emit e (World ins out d) = World ins (out ++ [e]) d.
Proof. reflexivity. Qed.

(** Brings the output of a world into the form [before ++ events]. *)
Ltac tidy_output :=
  repeat rewrite <- app_assoc; cbn [app].

(* ================================================================= *)
(** ** The builtins on examples *)

Example py_int_examples :
  py_int " 42 " = Some 42 /\ py_int "-0" = Some 0 /\
  py_int "1_000" = Some 1000 /\ py_int "007" = Some 7 /\
  py_int "12.5" = None /\ py_int "" = None /\ py_int "1__0" = None /\
  py_int "two" = None.
Proof. repeat split; reflexivity. Qed.

Example py_float_examples :
  py_float "8.5" = Some 8.5%float /\ py_float " 1e1 " = Some 10%float /\
  py_float "0.1" = Some 0.1%float /\ py_float ".5" = Some 0.5%float /\
  py_float "1_0.2_5e-1" = Some 1.025%float /\
  py_float "-Inf" = Some neg_infinity /\ py_float "nan" = Some nan /\
  py_float "1e400" = Some infinity /\
  py_float "great" = None /\ py_float "." = None /\ py_float "" = None.
Proof. repeat split; vm_compute; reflexivity. Qed.

Example nearest_is_float_division :
  nearest false 1 3 0 = (1 / 3)%float /\
  nearest true 25 3 0 = (-25 / 3)%float /\
  nearest false 1 10 0 = 0.1%float /\
  nearest false 1 1 (-1075) = 0%float /\
  nearest false 3 1 (-1075) = 1e-323%float.
Proof. repeat split; vm_compute; reflexivity. Qed.

Example py_round_examples :
  py_round 8.333333333333334 1 = 8.3%float /\
  py_round 0.25 1 = 0.2%float /\ py_round 0.75 1 = 0.8%float /\
  py_round 0.35 1 = 0.3%float /\ py_round 2.675 2 = 2.67%float /\
  py_round (-0.04) 1 = neg_zero /\ py_round 6 1 = 6%float /\
  py_round infinity 1 = infinity.
Proof. repeat split; vm_compute; reflexivity. Qed.

Example statistics_examples :
  mean_floats [9; 7; 9]%float = 8.333333333333334%float /\
  mean_floats [0.1; 0.2; 0.3]%float = 0.2%float /\
  mean_floats [1e308; 1e308; 1e308]%float = 1e308%float /\
  mean_floats [infinity; 1]%float = infinity /\
  is_nan (mean_floats [infinity; neg_infinity]%float) = true /\
  sorted [3; 1; 2; 1; 0.5]%float = [0.5; 1; 1; 2; 3]%float /\
  median_floats [9; 7; 9]%float = 9%float /\
  median_floats [0.1; 0.2]%float = 0.15000000000000002%float /\
  max_floats 9 [7; 9]%float = 9%float /\ min_floats 9 [7; 9]%float = 7%float.
Proof. repeat split; vm_compute; reflexivity. Qed.

Example strip_examples :
  strip "  Heat " = "Heat" /\ strip "   " = "" /\ strip "a  b" = "a  b" /\
  join ", " ["A"; "C"] = "A, C" /\ join ", " [] = "".
Proof. repeat split; reflexivity. Qed.

(* ================================================================= *)
(** ** C1: the statistics of a three-movie catalog *)

(** C1.  For the catalog A: 9.0, B: 7.0, C: 9.0 (whatever the years),
    [display_statistics] prints the mean 8.3, the median 9.0, the best
    movies "A, C" at 9.0 and the worst movie "B" at 7.0, and nothing else;
    ties are listed in iteration order, joined by ", ". *)
Theorem display_statistics_three_movies (y1 y2 y3 : pyval) (w : world) :
  display_statistics (three_movies y1 y2 y3) w =
  Returns tt
    (World (stdin w)
       (stdout w ++
        [Print [Text "Average rating: "; Value (PFloat 8.3)];
         Print [Text "Median rating: "; Value (PFloat 9)];
         Print [Text "Best movies ("; Value (PFloat 9); Text "): "; Text "A, C"];
         Print [Text "Worst movies ("; Value (PFloat 7); Text "): "; Text "B"]])
       (disk w)).
Proof.
  destruct w as [ins out d].
  cbv -[app]. tidy_output. reflexivity.
Qed.

(* ================================================================= *)
(** ** C2: loading tolerates a missing or malformed file *)

Lemma load_movies_empty (file_name : string) (w : world) :
  unusable (disk w !! file_name) ->
  exists w',
    load_movies file_name w = Returns [] w' /\
    stdin w' = stdin w /\ disk w' = disk w.
Proof.
  intros H. unfold load_movies, try_except, bind, open_and_load.
  inversion H as [Hf | Hf | j Hj Hf]; cbn.
  - eexists; split; [reflexivity | auto].
  - eexists; split; [reflexivity | auto].
  - destruct (decode j) eqn:E; try (eexists; split; [reflexivity | auto]).
    now destruct (Hj d).
Qed.



(* ================================================================= *)
(** ** [add_movie]: the title loop, the rating, the year *)

Lemma run_input {B} (p : string) (k : string -> io B) line rest out d :
  bind (input p) k (World (line :: rest) out d) =
  k line (World rest (out ++ [Prompt p]) d).
Proof. reflexivity. Qed.

Lemma run_print {B} (l : list fragment) (k : unit -> io B) ins out d :
  bind (print l) k (World ins out d) = k tt (World ins (out ++ [Print l]) d).
Proof. reflexivity. Qed.





Lemma add_movie_rated_refused (movies : dict) title r rest out d :
  rating_refused r ->
  add_movie_rated movies title (World (r :: rest) out d) =
  Returns movies (World rest (out ++ [rating_prompt; rating_diagnostic]) d).
Proof.
  unfold rating_refused, rating_in_range, add_movie_rated, try_except, bind,
    input, float_of. cbn [stdin stdout disk].
  destruct (py_float r) as [x |]; cbn.
  - intros ->. cbn. unfold emit; cbn. tidy_output. reflexivity.
  - intros _. unfold emit; cbn. tidy_output. reflexivity.
Qed.

Lemma year_refused_test (year : Z) :
  year_in_range year = false -> (year <? 1800) || (year >? 2024) = true.
Proof. unfold year_in_range. lia. Qed.

Lemma year_accepted_test (year : Z) :
  year_in_range year = true -> (year <? 1800) || (year >? 2024) = false.
Proof. unfold year_in_range. lia. Qed.

Lemma add_movie_year_refused (movies : dict) title r x y rest out d :
  py_float r = Some x -> rating_in_range x = true ->
  year_refused y ->
  add_movie_rated movies title (World (r :: y :: rest) out d) =
  Returns movies
    (World rest (out ++ [rating_prompt; year_prompt; year_diagnostic]) d).
Proof.
  unfold year_refused, rating_in_range, add_movie_rated, try_except, bind,
    input, float_of, int_of. cbn [stdin stdout disk].
  intros -> Hx. cbn. rewrite Hx. cbn.
  destruct (py_int y) as [n |]; cbn.
  - intros Hn. rewrite (year_refused_test _ Hn). cbn. unfold emit; cbn.
    tidy_output. reflexivity.
  - intros _. unfold emit; cbn. tidy_output. reflexivity.
Qed.

Lemma add_movie_stored (movies : dict) title r x y n rest out d :
  py_float r = Some x -> rating_in_range x = true ->
  py_int y = Some n -> year_in_range n = true ->
  add_movie_rated movies title (World (r :: y :: rest) out d) =
  (save_movies FILE_NAME (dict_set movies title (movie x n));;
   print [Text "Movie '"; Text title; Text "' added successfully!"];;
   ret (dict_set movies title (movie x n)))
    (World rest (out ++ [rating_prompt; year_prompt]) d).
Proof.
  unfold rating_in_range, add_movie_rated.
  intros Hr Hx Hy Hn.
  unfold try_except at 1 2, bind at 1 2 3 4 5 6 7, input, float_of, int_of. cbn [stdin stdout disk].
  rewrite Hr. cbn. rewrite Hx. cbn. rewrite Hy. cbn.
  rewrite (year_accepted_test _ Hn). cbn.
  tidy_output. reflexivity.
Qed.

Lemma rating_refused_dec (r : string) :
  rating_refused r \/
  exists x, py_float r = Some x /\ rating_in_range x = true.
Proof.
  unfold rating_refused. destruct (py_float r) as [x |]; [| now left].
  destruct (rating_in_range x) eqn:E; [right; eauto | now left].
Qed.

Lemma year_refused_dec (y : string) :
  year_refused y \/
  exists n, py_int y = Some n /\ year_in_range n = true.
Proof.
  unfold year_refused. destruct (py_int y) as [n |]; [| now left].
  destruct (year_in_range n) eqn:E; [right; eauto | now left].
Qed.

(** [save_movies] never raises and touches only the disk and the output. *)
Lemma save_movies_writable (file_name : string) (movies : dict) ins out d :
  writable (World ins out d) file_name ->
  save_movies file_name movies (World ins out d) =
  Returns tt
    (World ins out
       (<[file_name := File false (Document (encode (PDict movies)))]> d)).
Proof.
  unfold writable, save_movies, try_except, open_and_dump. cbn [disk stdin stdout].
  intros H. destruct (d !! file_name) as [f |] eqn:E; [| reflexivity].
  now rewrite (H f eq_refl).
Qed.


(* ================================================================= *)
(** ** C3: invalid input changes nothing *)



(* ================================================================= *)
(** ** C9: title, then rating, then year *)



(* ================================================================= *)
(** ** Dictionaries *)

Lemma dict_get_In (d : dict) (k : string) (v : pyval) :
  dict_get d k = Some v -> In (k, v) d.
Proof.
  induction d as [| [k' v'] d IH]; cbn; [discriminate |].
  destruct (String.eqb_spec k' k) as [-> | Hne].
  - intros [= ->]. now left.
  - intros H. right. auto.
Qed.

Lemma dict_get_None (d : dict) (k : string) :
  dict_get d k = None <-> ~ In k (List.map fst d).
Proof.
  induction d as [| [k' v'] d IH]; cbn; [tauto |].
  destruct (String.eqb_spec k' k) as [-> | Hne].
  - split; [discriminate | tauto].
  - rewrite IH. tauto.
Qed.

Lemma dict_set_fresh (d : dict) (k : string) (v : pyval) :
  ~ In k (List.map fst d) -> dict_set d k v = d ++ [(k, v)].
Proof.
  induction d as [| [k' v'] d IH]; cbn; [reflexivity |].
  intros H. destruct (String.eqb_spec k' k) as [-> | Hne]; [tauto |].
  rewrite IH; tauto.
Qed.

Lemma dict_set_keys (d : dict) (k : string) (v : pyval) :
  List.map fst (dict_set d k v) =
  if dict_contains d k then List.map fst d else List.map fst d ++ [k].
Proof.
  unfold dict_contains.
  induction d as [| [k' v'] d IH]; cbn; [reflexivity |].
  destruct (String.eqb_spec k' k) as [-> | Hne]; cbn; [reflexivity |].
  rewrite IH. now destruct (dict_get d k).
Qed.

Lemma dict_set_unique (d : dict) (k : string) (v : pyval) :
  unique_titles d -> unique_titles (dict_set d k v).
Proof.
  unfold unique_titles. intros H. rewrite dict_set_keys.
  unfold dict_contains. destruct (dict_get d k) eqn:E; [exact H |].
  apply dict_get_None in E.
  apply List.NoDup_app; auto.
  - repeat constructor. intros [].
  - intros x Hx [<- | []]. now apply E.
Qed.


Lemma dict_get_del_other (d : dict) (k other : string) :
  other <> k -> dict_get (dict_del d k) other = dict_get d other.
Proof.
  intros Hne. unfold dict_del.
  induction d as [| [k' v'] d IH]; cbn; [reflexivity |].
  destruct (String.eqb_spec k' k) as [-> | Hk]; cbn.
  - destruct (String.eqb_spec k other); [congruence | exact IH].
  - now rewrite IH.
Qed.



Lemma dict_del_unique (d : dict) (k : string) :
  unique_titles d -> unique_titles (dict_del d k).
Proof.
  unfold unique_titles, dict_del.
  induction d as [| [k' v'] d IH]; cbn; [auto |].
  intros [Hk' Hu]%List.NoDup_cons_iff.
  destruct (String.eqb k' k); cbn; auto.
  apply List.NoDup_cons; auto.
  intros Hin. apply Hk'.
  apply List.in_map_iff in Hin as (x & <- & Hx%List.filter_In).
  apply List.in_map. tauto.
Qed.

Lemma dict_of_pairs_from (pairs acc : dict) :
  List.NoDup (List.map fst (acc ++ pairs)) ->
  fold_left (fun d kv => dict_set d (fst kv) (snd kv)) pairs acc = acc ++ pairs.
Proof.
  revert acc. induction pairs as [| [k v] pairs IH]; intros acc H; cbn.
  - now rewrite app_nil_r.
  - rewrite dict_set_fresh.
    + rewrite IH; rewrite <- app_assoc; [reflexivity | exact H].
    + rewrite List.map_app in H. cbn in H.
      apply List.NoDup_remove_2 in H. rewrite List.in_app_iff in H. tauto.
Qed.

(** Building a dictionary from pairs with distinct keys keeps the pairs. *)
Lemma dict_of_pairs_unique (pairs : dict) :
  unique_titles pairs -> dict_of_pairs pairs = pairs.
Proof. intros H. apply (dict_of_pairs_from pairs []). exact H. Qed.

Lemma decode_encode_movie (v : pyval) :
  movie_ok v -> decode (encode v) = v.
Proof. intros (rating & year & -> & _). reflexivity. Qed.

Lemma decode_encode_catalog (movies : dict) :
  unique_titles movies ->
  Forall (fun item => movie_ok (snd item)) movies ->
  decode (encode (PDict movies)) = PDict movies.
Proof.
  intros Hu Hok. cbn [encode decode]. f_equal.
  rewrite List.map_map. cbn [fst snd].
  replace (List.map (fun x => (fst x, decode (encode (snd x)))) movies)
    with movies; [now apply dict_of_pairs_unique |].
  induction Hok as [| [k v] l Hv Hl IH]; cbn; [reflexivity |].
  rewrite (decode_encode_movie v Hv). f_equal. apply IH.
  now apply List.NoDup_cons_iff in Hu.
Qed.

(* ================================================================= *)
(** ** C5: saving then loading gives the catalog back *)

(** C5.  For every catalog (a dictionary, so with distinct titles) whose
    entries are movie records with rating and year in range, and a file the
    process may write, [save_movies] followed by [load_movies] of the same
    file returns the very same catalog. *)
Theorem save_then_load (file_name : string) (movies : dict) (w : world) :
  unique_titles movies ->
  Forall (fun item => movie_ok (snd item)) movies ->
  writable w file_name ->
  exists w1 w2,
    save_movies file_name movies w = Returns tt w1 /\
    load_movies file_name w1 = Returns movies w2.
Proof.
  intros Hu Hok Hw. destruct w as [ins out d].
  rewrite (save_movies_writable _ _ _ _ _ Hw).
  eexists _, _. split; [reflexivity |].
  unfold load_movies, try_except, bind, open_and_load. cbn [disk].
  rewrite lookup_insert_eq. cbn.
  rewrite List.map_map. cbn [fst snd].
  pose proof (decode_encode_catalog movies Hu Hok) as E.
  cbn [encode decode] in E. rewrite List.map_map in E. cbn [fst snd] in E.
  injection E as ->. reflexivity.
Qed.

Lemma save_then_load_witness :
  exists w1 w2,
    save_movies FILE_NAME
      [("Alien", movie 8.5 1979); ("Heat", movie 8.2 1995)]
      (world_with [] (JObject [])) = Returns tt w1 /\
    load_movies FILE_NAME w1 =
    Returns [("Alien", movie 8.5 1979); ("Heat", movie 8.2 1995)] w2.
Proof.
  apply (save_then_load FILE_NAME
           [("Alien", movie 8.5 1979); ("Heat", movie 8.2 1995)]
           (world_with [] (JObject []))).
  - repeat constructor; cbn; intuition discriminate.
  - repeat constructor; eexists _, _; repeat split; reflexivity.
  - intros f Hf. vm_compute in Hf. injection Hf as <-. reflexivity.
Defined.

(* ================================================================= *)
(** ** C6: deleting a movie *)



(* ================================================================= *)
(** ** The order of floats *)

(** The comparisons of binary64 values, read through their specification
    [SFcompare]: NaN compares with nothing, the other values form a total
    preorder (the two zeros compare equal). *)
Section SpecFloatOrder.


Lemma SFcompare_refl (x : spec_float) :
  x <> S754_nan -> SFcompare x x = Some Eq.
Proof.
  destruct x as [s | s | | s m e]; cbn; try congruence; intros _.
  - now destruct s.
  - destruct s; rewrite Z.compare_refl;
      change (Pos.compare_cont Eq m m) with (Pos.compare m m);
      now rewrite Pos.compare_refl.
Qed.



End SpecFloatOrder.

Lemma not_nan_spec (x : float) : not_nan x <-> Prim2SF x <> S754_nan.
Proof.
  unfold not_nan. rewrite FloatAxioms.eqb_spec. unfold SFeqb. split.
  - intros H E. rewrite E in H. discriminate.
  - intros H. now rewrite SFcompare_refl.
Qed.






Lemma float_leb_not_nan (x y : float) :
  PrimFloat.leb x y = true -> not_nan x /\ not_nan y.
Proof.
  rewrite FloatAxioms.leb_spec, !not_nan_spec. unfold SFleb.
  destruct (Prim2SF x), (Prim2SF y); cbn; try discriminate; split; congruence.
Qed.

Lemma float_eqb_not_nan (x y : float) :
  PrimFloat.eqb x y = true -> not_nan x /\ not_nan y.
Proof.
  rewrite FloatAxioms.eqb_spec, !not_nan_spec. unfold SFeqb.
  destruct (Prim2SF x), (Prim2SF y); cbn; try discriminate; split; congruence.
Qed.

(** A rating in range is not NaN. *)
Lemma rating_in_range_not_nan (x : float) :
  rating_in_range x = true -> not_nan x.
Proof.
  unfold rating_in_range. intros [H _]%andb_true_iff.
  now apply float_leb_not_nan in H.
Qed.

(* ================================================================= *)
(** ** [max], [min] and [sorted] on floats *)


















(* ================================================================= *)
(** ** [display_statistics] on float ratings *)

Lemma float_ratings_cons (title : string) (details : pyval) (rest : dict)
    (ratings : list float) :
  float_ratings ((title, details) :: rest) = Some ratings ->
  exists x xs,
    ratings = x :: xs /\ rating_of details = Some x /\
    float_ratings rest = Some xs.
Proof.
  cbn. destruct (rating_of details) as [x |]; [| discriminate].
  destruct (float_ratings rest) as [xs |]; [| discriminate].
  intros [= <-]. eauto.
Qed.

Lemma subscript_rating (details : pyval) (x : float) (w : world) :
  rating_of details = Some x ->
  subscript details "rating" w = Returns (PFloat x) w.
Proof.
  unfold rating_of, subscript. destruct details; try discriminate.
  destruct (dict_get d "rating") as [[] |]; try discriminate.
  now intros [= ->].
Qed.

Lemma read_ratings (movies : dict) (ratings : list float) (w : world) :
  float_ratings movies = Some ratings ->
  map_io (fun item => subscript (snd item) "rating") movies w =
  Returns (List.map PFloat ratings) w.
Proof.
  revert ratings. induction movies as [| [title details] rest IH];
    intros ratings H.
  - injection H as <-. reflexivity.
  - apply float_ratings_cons in H as (x & xs & -> & Hx & Hxs).
    cbn [map_io snd]. rewrite (bind_returns _ _ _ _ _ (subscript_rating _ _ _ Hx)).
    rewrite (bind_returns _ _ _ _ _ (IH _ Hxs)). reflexivity.
Qed.

Lemma as_floats_PFloat (data : list float) (w : world) :
  map_io as_float (List.map PFloat data) w = Returns data w.
Proof.
  induction data as [| x data IH]; [reflexivity |].
  cbn [List.map map_io]. unfold bind at 1. cbn [as_float ret].
  rewrite (bind_returns _ _ _ _ _ IH). reflexivity.
Qed.

Lemma is_number_PFloat (data : list float) :
  forallb is_number (List.map PFloat data) = true.
Proof. induction data; cbn; auto. Qed.

Lemma titles_rated_floats (r : float) (movies : dict) (ratings : list float)
    (w : world) :
  float_ratings movies = Some ratings ->
  titles_rated r movies w = Returns (titles_with_rating r movies) w.
Proof.
  revert ratings. induction movies as [| [title details] rest IH];
    intros ratings H; [reflexivity |].
  apply float_ratings_cons in H as (x & xs & -> & Hx & Hxs).
  cbn [titles_rated].
  rewrite (bind_returns _ _ _ _ _ (subscript_rating _ _ _ Hx)).
  unfold bind at 1. cbn [as_float ret].
  rewrite (bind_returns _ _ _ _ _ (IH _ Hxs)).
  unfold titles_with_rating. cbn [List.filter snd]. rewrite Hx.
  now destruct (PrimFloat.eqb x r).
Qed.

Lemma statistics_mean_floats (x : float) (xs : list float) (w : world) :
  statistics_mean (List.map PFloat (x :: xs)) w =
  Returns (mean_floats (x :: xs)) w.
Proof.
  unfold statistics_mean. rewrite is_number_PFloat.
  now rewrite (bind_returns _ _ _ _ _ (as_floats_PFloat _ _)).
Qed.

Lemma statistics_median_floats (x : float) (xs : list float) (w : world) :
  statistics_median (List.map PFloat (x :: xs)) w =
  Returns (median_floats (x :: xs)) w.
Proof.
  unfold statistics_median.
  now rewrite (bind_returns _ _ _ _ _ (as_floats_PFloat _ _)).
Qed.

Lemma py_max_floats (x : float) (xs : list float) (w : world) :
  py_max (List.map PFloat (x :: xs)) w = Returns (max_floats x xs) w.
Proof.
  unfold py_max.
  now rewrite (bind_returns _ _ _ _ _ (as_floats_PFloat _ _)).
Qed.

Lemma py_min_floats (x : float) (xs : list float) (w : world) :
  py_min (List.map PFloat (x :: xs)) w = Returns (min_floats x xs) w.
Proof.
  unfold py_min.
  now rewrite (bind_returns _ _ _ _ _ (as_floats_PFloat _ _)).
Qed.

(** What [display_statistics] prints for a catalog whose ratings are
    floats. *)
Lemma display_statistics_floats (movies : dict) (first : float)
    (rest : list float) (w : world) :
  float_ratings movies = Some (first :: rest) ->
  let ratings := first :: rest in
  display_statistics movies w =
  Returns tt
    (World (stdin w)
       (stdout w ++
        [Print [Text "Average rating: ";
                Value (PFloat (py_round (mean_floats ratings) 1))];
         Print [Text "Median rating: ";
                Value (PFloat (py_round (median_floats ratings) 1))];
         Print [Text "Best movies ("; Value (PFloat (max_floats first rest));
                Text "): ";
                Text (join ", " (titles_with_rating (max_floats first rest) movies))];
         Print [Text "Worst movies ("; Value (PFloat (min_floats first rest));
                Text "): ";
                Text (join ", " (titles_with_rating (min_floats first rest) movies))]])
       (disk w)).
Proof.
  intros H ratings. unfold display_statistics.
  destruct movies as [| item movies']; [discriminate |].
  cbn [dict_is_empty]. set (movies := item :: movies') in *.
  rewrite (bind_returns _ _ _ _ _ (read_ratings _ _ w H)).
  change (List.map PFloat (first :: rest))
    with (PFloat first :: List.map PFloat rest).
  cbv iota.
  change (PFloat first :: List.map PFloat rest)
    with (List.map PFloat (first :: rest)).
  rewrite (bind_returns _ _ _ _ _ (statistics_mean_floats _ _ _)).
  rewrite (bind_returns _ _ _ _ _ (statistics_median_floats _ _ _)).
  rewrite (bind_returns _ _ _ _ _ (py_max_floats _ _ _)).
  rewrite (bind_returns _ _ _ _ _ (py_min_floats _ _ _)).
  rewrite (bind_returns _ _ _ _ _ (titles_rated_floats _ _ _ w H)).
  rewrite (bind_returns _ _ _ _ _ (titles_rated_floats _ _ _ w H)).
  destruct w as [ins out d].
  rewrite !run_print. unfold print, emit. cbn [stdin stdout disk].
  tidy_output. reflexivity.
Qed.





(* ================================================================= *)
(** ** C8: the median of an even number of ratings *)



(* ================================================================= *)
(** ** C10: the best and the worst movies *)




(* ================================================================= *)
(** ** A program logic for the console *)

Lemma follows_refl (w : world) : follows w w.
Proof. now exists []. Qed.

Lemma follows_trans (w1 w2 w3 : world) :
  follows w1 w2 -> follows w2 w3 -> follows w1 w3.
Proof.
  intros [r1 H1] [r2 H2]. exists (r1 ++ r2).
  now rewrite H1, H2, app_assoc.
Qed.

Lemma follows_length (w w' : world) :
  follows w w' -> (length (stdin w') <= length (stdin w))%nat.
Proof. intros [r H]. rewrite H, length_app. lia. Qed.

Lemma follows_emit (e : event) (w : world) : follows w (emit e w).
Proof. now exists []. Qed.

Lemma outcome_ok_weaken {A} (post post' : A -> Prop) (exc exc' : exn -> Prop)
    (w : world) (r : outcome A) :
  (forall a, post a -> post' a) -> (forall e, exc e -> exc' e) ->
  outcome_ok post exc w r -> outcome_ok post' exc' w r.
Proof.
  intros Hp He. destruct r as [a w' | e w']; cbn.
  - intros [? ?]; auto.
  - intros [? [? | ?]]; auto.
Qed.

Lemma outcome_ok_from {A} (post : A -> Prop) (exc : exn -> Prop)
    (w0 w : world) (r : outcome A) :
  follows w0 w -> outcome_ok post exc w r -> outcome_ok post exc w0 r.
Proof.
  intros Hf. destruct r as [a w' | e w']; cbn; intros [H ?]; split; auto;
    now apply follows_trans with w.
Qed.

Lemma behaves_weaken {A} (c : io A) (post post' : A -> Prop)
    (exc exc' : exn -> Prop) :
  (forall a, post a -> post' a) -> (forall e, exc e -> exc' e) ->
  behaves c post exc -> behaves c post' exc'.
Proof. intros Hp He H w. eapply outcome_ok_weaken; eauto. Qed.

Lemma behaves_ret {A} (a : A) (post : A -> Prop) exc :
  post a -> behaves (ret a) post exc.
Proof. intros H w. split; [apply follows_refl | exact H]. Qed.

Lemma behaves_raise {A} (e : exn) (post : A -> Prop) (exc : exn -> Prop) :
  exc e -> behaves (raise e) post exc.
Proof. intros H w. split; [apply follows_refl | now right]. Qed.

Lemma behaves_bind {A B} (c : io A) (k : A -> io B) (mid : A -> Prop)
    (post : B -> Prop) exc :
  behaves c mid exc -> (forall a, mid a -> behaves (k a) post exc) ->
  behaves (bind c k) post exc.
Proof.
  intros Hc Hk w. unfold bind. specialize (Hc w).
  destruct (c w) as [a w' | e w']; cbn in Hc.
  - destruct Hc as [Hf Ha]. eapply outcome_ok_from; [exact Hf |].
    now apply Hk.
  - exact Hc.
Qed.

Lemma behaves_try {A} (body handler : io A) (catches : exn -> bool)
    (post : A -> Prop) (exc_body exc : exn -> Prop) :
  behaves body post exc_body ->
  catches EOFError = false ->
  (forall e, exc_body e -> catches e = false -> exc e) ->
  behaves handler post exc ->
  behaves (try_except body catches handler) post exc.
Proof.
  intros Hb Heof Hexc Hh w. unfold try_except. specialize (Hb w).
  destruct (body w) as [a w' | e w']; cbn in Hb; [exact Hb |].
  destruct Hb as [Hf He].
  destruct (catches e) eqn:E.
  - eapply outcome_ok_from; [exact Hf | apply Hh].
  - cbn. split; [exact Hf |].
    destruct He as [He | He]; [now left | right; auto].
Qed.

Lemma behaves_print (line : list fragment) exc :
  behaves (print line) anything exc.
Proof. intros w. split; [apply follows_emit | exact I]. Qed.

Lemma behaves_input (prompt : string) exc :
  behaves (input prompt) anything exc.
Proof.
  intros w. unfold input. destruct (stdin w) as [| line rest] eqn:E; cbn.
  - split; [apply follows_emit |]. left. split; [reflexivity | exact E].
  - split; [| exact I]. exists [line]. now rewrite E.
Qed.

Lemma behaves_with_fuel {A} (body : nat -> io A) (post : A -> Prop) exc :
  (forall fuel w, (length (stdin w) < fuel)%nat ->
                  outcome_ok post exc w (body fuel w)) ->
  behaves (with_fuel body) post exc.
Proof. intros H w. apply H. lia. Qed.

Lemma behaves_int_of (s : string) :
  behaves (int_of s) (fun n => py_int s = Some n) (fun e => e = ValueError).
Proof.
  unfold int_of. destruct (py_int s).
  - now apply behaves_ret.
  - now apply behaves_raise.
Qed.

Lemma behaves_float_of (s : string) :
  behaves (float_of s) (fun x => py_float s = Some x) (fun e => e = ValueError).
Proof.
  unfold float_of. destruct (py_float s).
  - now apply behaves_ret.
  - now apply behaves_raise.
Qed.

Lemma behaves_save_movies (file_name : string) (movies : dict) exc :
  behaves (save_movies file_name movies) anything exc.
Proof.
  intros w. unfold save_movies, try_except, open_and_dump.
  destruct (disk w !! file_name) as [f |]; [destruct (denied f) |]; cbn;
    (split; [| exact I]); try apply follows_emit; now exists [].
Qed.

Lemma behaves_title_loop (fuel : nat) :
  forall (title : string) (w : world),
    (length (stdin w) < fuel)%nat ->
    outcome_ok (fun t => t <> "") no_exception w (title_loop fuel title w).
Proof.
  induction fuel as [| fuel IH]; intros title w Hf; [lia |].
  cbn [title_loop]. destruct title as [| c title]; cbn [str_is_empty].
  - unfold bind, input. destruct w as [ins out d]. cbn [stdin stdout disk] in *.
    destruct ins as [| line rest]; cbn [length] in *.
    + split; [apply follows_emit | now left].
    + eapply outcome_ok_from; [| apply IH; cbn; lia].
      now exists [line].
  - split; [apply follows_refl | discriminate].
Qed.


Lemma dict_set_ok (movies : dict) (title : string) (x : float) (n : Z) :
  catalog_ok movies -> title <> "" ->
  rating_in_range x = true -> year_in_range n = true ->
  catalog_ok (dict_set movies title (movie x n)).
Proof.
  intros [Hu Hall] Ht Hx Hn. split; [now apply dict_set_unique |].
  assert (Hnew : movie_ok (movie x n)) by (exists x, n; auto).
  clear Hu. induction Hall as [| [k v] l [Hk Hv] Hl IH]; cbn.
  - repeat constructor; auto.
  - destruct (String.eqb_spec k title) as [-> | Hne]; constructor; auto.
Qed.

Lemma dict_del_ok (movies : dict) (title : string) :
  catalog_ok movies -> catalog_ok (dict_del movies title).
Proof.
  intros [Hu Hall]. split; [now apply dict_del_unique |].
  unfold dict_del. clear Hu.
  induction Hall as [| [k v] l H Hl IH]; cbn; [constructor |].
  destruct (String.eqb k title); cbn; auto.
Qed.

(** [add_movie] keeps the invariants and raises nothing but [EOFError]. *)
Lemma behaves_add_movie (movies : dict) :
  behaves (add_movie movies) (fun m => catalog_ok movies -> catalog_ok m)
    no_exception.
Proof.
  unfold add_movie.
  eapply behaves_bind; [apply behaves_input |]. intros line _.
  eapply behaves_bind.
  { apply behaves_with_fuel. intros fuel w Hf. now apply behaves_title_loop. }
  intros title Ht. cbn beta in Ht.
  eapply behaves_bind with
    (mid := fun r => match r with
                     | Some x => rating_in_range x = true
                     | None => True
                     end).
  { eapply behaves_try with (exc_body := fun e => e = ValueError).
    - eapply behaves_bind; [apply behaves_input |]. intros l _.
      eapply behaves_bind; [apply behaves_float_of |]. intros x _.
      destruct (PrimFloat.leb 0 x && PrimFloat.leb x 10) eqn:E; cbn [negb].
      + now apply behaves_ret.
      + now apply behaves_raise.
    - reflexivity.
    - intros e -> [=].
    - eapply behaves_bind; [apply behaves_print |]. intros _ _.
      now apply behaves_ret. }
  intros [x |] Hx; [| now apply behaves_ret].
  eapply behaves_bind with
    (mid := fun r => match r with
                     | Some n => year_in_range n = true
                     | None => True
                     end).
  { eapply behaves_try with (exc_body := fun e => e = ValueError).
    - eapply behaves_bind; [apply behaves_input |]. intros l _.
      eapply behaves_bind; [apply behaves_int_of |]. intros n _.
      destruct ((n <? 1800) || (n >? 2024)) eqn:E.
      + now apply behaves_raise.
      + apply behaves_ret. unfold year_in_range. lia.
    - reflexivity.
    - intros e -> [=].
    - eapply behaves_bind; [apply behaves_print |]. intros _ _.
      now apply behaves_ret. }
  intros [n |] Hn; [| now apply behaves_ret].
  eapply behaves_bind; [apply behaves_save_movies |]. intros _ _.
  eapply behaves_bind; [apply behaves_print |]. intros _ _.
  apply behaves_ret. intros Hok. now apply dict_set_ok.
Qed.

(** So does [delete_movie]. *)
Lemma behaves_delete_movie (movies : dict) :
  behaves (delete_movie movies) (fun m => catalog_ok movies -> catalog_ok m)
    no_exception.
Proof.
  unfold delete_movie.
  eapply behaves_bind; [apply behaves_input |]. intros line _.
  destruct (dict_contains movies (strip line)).
  - eapply behaves_bind; [apply behaves_save_movies |]. intros _ _.
    eapply behaves_bind; [apply behaves_print |]. intros _ _.
    apply behaves_ret. intros Hok. now apply dict_del_ok.
  - eapply behaves_bind; [apply behaves_print |]. intros _ _.
    now apply behaves_ret.
Qed.

Lemma behaves_perform_all (ops : list operation) :
  forall movies,
    catalog_ok movies ->
    behaves (perform_all ops movies) catalog_ok no_exception.
Proof.
  induction ops as [| op ops IH]; intros movies Hok; cbn [perform_all].
  - now apply behaves_ret.
  - eapply behaves_bind; [| intros m Hm; apply IH; exact (Hm Hok)].
    destruct op; [apply behaves_add_movie | apply behaves_delete_movie].
Qed.

(* ================================================================= *)
(** ** C4: the invariants of the catalog *)

(** C4, as the code has it.  [load_movies] checks nothing but that the
    document is an object: it returns its entries as they are.  When the
    loaded catalog satisfies the invariants, or the file was missing or
    unusable (then the loaded catalog is empty), every catalog reached by
    any sequence of [add_movie] and [delete_movie] satisfies them: ratings
    within [0.0, 10.0], years within [1800, 2024], titles unique and
    non-empty. *)
Theorem invariants_preserved (ops : list operation) (start movies : dict)
    (w0 w1 w2 : world) :
  load_movies FILE_NAME w0 = Returns start w1 ->
  catalog_ok start \/ unusable (disk w0 !! FILE_NAME) ->
  perform_all ops start w1 = Returns movies w2 ->
  catalog_ok movies.
Proof.
  intros Hload Hstart Hrun.
  assert (Hok : catalog_ok start).
  { destruct Hstart as [Hok | Hun]; [exact Hok |].
    destruct (load_movies_empty FILE_NAME w0 Hun) as (w' & Hl & _).
    rewrite Hl in Hload. injection Hload as <- _. split; constructor. }
  pose proof (behaves_perform_all ops start Hok w1) as H.
  rewrite Hrun in H. apply H.
Qed.

Lemma invariants_preserved_witness :
  catalog_ok [("Heat", movie 8.2 1995)].
Proof.
  apply (invariants_preserved [Add; Delete; Add] []
           [("Heat", movie 8.2 1995)]
           (empty_world ["Alien"; "8.5"; "1979"; "Alien"; "Heat"; "8.2"; "1995"])
           (empty_world ["Alien"; "8.5"; "1979"; "Alien"; "Heat"; "8.2"; "1995"])
           (World []
              [title_prompt; rating_prompt; year_prompt;
               Print [Text "Movie '"; Text "Alien"; Text "' added successfully!"];
               Prompt "Enter movie title to delete: ";
               Print [Text "Movie '"; Text "Alien"; Text "' deleted successfully!"];
               title_prompt; rating_prompt; year_prompt;
               Print [Text "Movie '"; Text "Heat"; Text "' added successfully!"]]
              {[ FILE_NAME :=
                   File false (Document (encode (PDict [("Heat", movie 8.2 1995)]))) ]})).
  - reflexivity.
  - right. exact unusable_missing.
  - vm_compute. reflexivity.
Defined.

(** C4 as stated fails at its first step: the file may hold anything.
    Here the loaded catalog has an empty title, the rating 11.0 and the
    year 1700. *)
Lemma load_keeps_invalid_entries :
  load_movies FILE_NAME
    (world_with []
       (JObject [("", JObject [("rating", JFloat 11); ("year", JInt 1700)])])) =
  Returns [("", movie 11 1700)]
    (world_with []
       (JObject [("", JObject [("rating", JFloat 11); ("year", JInt 1700)])])) /\
  ~ catalog_ok [("", movie 11 1700)] /\
  rating_in_range 11 = false /\ year_in_range 1700 = false.
Proof.
  split; [vm_compute; reflexivity |].
  split; [| split; reflexivity].
  intros [_ H]. inversion H as [| ? ? [Ht _] _]. now apply Ht.
Qed.

(* ================================================================= *)
(** ** Listing and statistics never fail on a well-formed catalog *)

Lemma behaves_subscript (v : pyval) (key : string) :
  behaves (subscript v key) anything python_exception.
Proof.
  unfold subscript. destruct v; try (now apply behaves_raise).
  destruct (dict_get d key); [now apply behaves_ret | now apply behaves_raise].
Qed.

Lemma behaves_map_io {A B} (f : A -> io B) (l : list A) exc :
  (forall a, behaves (f a) anything exc) ->
  behaves (map_io f l) anything exc.
Proof.
  intros Hf. induction l as [| a l IH]; cbn [map_io].
  - now apply behaves_ret.
  - eapply behaves_bind; [apply Hf |]. intros b _.
    eapply behaves_bind; [apply IH |]. intros bs _.
    now apply behaves_ret.
Qed.

Lemma behaves_for_each {A} (f : A -> io unit) (l : list A) exc :
  (forall a, In a l -> behaves (f a) anything exc) ->
  behaves (for_each f l) anything exc.
Proof.
  induction l as [| a l IH]; intros Hf; cbn [for_each].
  - now apply behaves_ret.
  - eapply behaves_bind; [apply Hf; now left |]. intros _ _.
    apply IH. intros b Hb. apply Hf. now right.
Qed.

Lemma behaves_as_float (v : pyval) :
  behaves (as_float v) anything python_exception.
Proof.
  destruct v; unfold as_float;
    first [now apply behaves_ret | now apply behaves_raise].
Qed.

Lemma behaves_titles_rated (r : float) (movies : dict) :
  behaves (titles_rated r movies) anything python_exception.
Proof.
  induction movies as [| [title details] rest IH]; cbn [titles_rated].
  - now apply behaves_ret.
  - eapply behaves_bind; [apply behaves_subscript |]. intros v _.
    eapply behaves_bind; [apply behaves_as_float |]. intros x _.
    eapply behaves_bind; [apply IH |]. intros ts _.
    now apply behaves_ret.
Qed.

(** On any catalog, [list_movies] and [display_statistics] return or raise
    a Python exception. *)
Lemma behaves_list_movies_any (movies : dict) :
  behaves (list_movies movies) anything python_exception.
Proof.
  unfold list_movies. destruct (dict_is_empty movies); [apply behaves_print |].
  eapply behaves_bind; [apply behaves_print |]. intros _ _.
  apply behaves_for_each. intros item _.
  eapply behaves_bind; [apply behaves_subscript |]. intros r _.
  eapply behaves_bind; [apply behaves_subscript |]. intros y _.
  apply behaves_print.
Qed.

Lemma behaves_display_statistics_any (movies : dict) :
  behaves (display_statistics movies) anything python_exception.
Proof.
  unfold display_statistics.
  destruct (dict_is_empty movies); [apply behaves_print |].
  eapply behaves_bind.
  { apply behaves_map_io. intros item. apply behaves_subscript. }
  intros [| r ratings] _; [apply behaves_print |].
  assert (Hfloats : behaves (map_io as_float (r :: ratings)) anything
                      python_exception)
    by (apply behaves_map_io; intros v; apply behaves_as_float).
  eapply behaves_bind with (mid := anything).
  { unfold statistics_mean. destruct (forallb is_number (r :: ratings)).
    - eapply behaves_bind; [exact Hfloats |].
      intros [| ? ?] _; [now apply behaves_raise | now apply behaves_ret].
    - now apply behaves_raise. }
  intros mean _.
  eapply behaves_bind with (mid := anything).
  { unfold statistics_median. eapply behaves_bind; [exact Hfloats |].
    intros [| ? ?] _; [now apply behaves_raise | now apply behaves_ret]. }
  intros median _.
  eapply behaves_bind with (mid := anything).
  { unfold py_max. eapply behaves_bind; [exact Hfloats |].
    intros [| ? ?] _; [now apply behaves_raise | now apply behaves_ret]. }
  intros max_rating _.
  eapply behaves_bind with (mid := anything).
  { unfold py_min. eapply behaves_bind; [exact Hfloats |].
    intros [| ? ?] _; [now apply behaves_raise | now apply behaves_ret]. }
  intros min_rating _.
  eapply behaves_bind; [apply behaves_titles_rated |]. intros best _.
  eapply behaves_bind; [apply behaves_titles_rated |]. intros worst _.
  repeat (eapply behaves_bind; [apply behaves_print |]; intros _ _).
  apply behaves_print.
Qed.





(* ================================================================= *)
(** ** The menu loop *)

Lemma menu_pass_at_end (movies : dict) out d :
  menu_pass movies (World [] out d) =
  Raises EOFError (World [] (out ++ menu_lines ++ [selection_prompt]) d).
Proof.
  unfold menu_pass. rewrite !run_print.
  unfold bind, try_except, input, emit. cbn [stdin stdout disk].
  unfold menu_lines, selection_prompt. tidy_output. reflexivity.
Qed.

Lemma menu_pass_reads (movies : dict) line rest out d :
  menu_pass movies (World (line :: rest) out d) =
  match py_int line with
  | None =>
      Returns (Continue movies)
        (World rest
           (out ++ menu_lines ++ [selection_prompt; selection_diagnostic]) d)
  | Some choice =>
      dispatch movies choice
        (World rest (out ++ menu_lines ++ [selection_prompt]) d)
  end.
Proof.
  unfold menu_pass. rewrite !run_print.
  unfold bind at 1. unfold try_except. rewrite run_input.
  unfold int_of. destruct (py_int line) as [choice |].
  - unfold bind at 1. cbn [ret raise is_ValueError].
    unfold menu_lines, selection_prompt. tidy_output. reflexivity.
  - unfold bind at 1. cbn [ret raise is_ValueError].
    rewrite run_print. cbn [ret].
    unfold menu_lines, selection_prompt, selection_diagnostic.
    tidy_output. reflexivity.
Qed.




(** One pass and the whole loop, for any invariant [inv] of the catalog
    that the operations keep and any set [exc] of exceptions they may
    raise. *)
Section MenuLoop.

Variable inv : dict -> Prop.
Variable exc : exn -> Prop.
Hypothesis list_ok :
  forall m, inv m -> behaves (list_movies m) anything exc.
Hypothesis statistics_ok :
  forall m, inv m -> behaves (display_statistics m) anything exc.
Hypothesis add_ok : forall m, inv m -> behaves (add_movie m) inv exc.
Hypothesis delete_ok : forall m, inv m -> behaves (delete_movie m) inv exc.

Lemma dispatch_outcome (movies : dict) (choice : Z) (w : world) :
  inv movies ->
  match dispatch movies choice w with
  | Returns Break w' => choice = 0 /\ stdin w' = stdin w
  | Returns (Continue m) w' => inv m /\ follows w w'
  | Raises e w' =>
      follows w w' /\ ((e = EOFError /\ stdin w' = []) \/ exc e)
  end.
Proof.
  intros Hinv.
  assert (Hgo : forall (c : io dict),
             behaves c inv exc ->
             match bind c (fun m => ret (Continue m)) w with
             | Returns Break w' => choice = 0 /\ stdin w' = stdin w
             | Returns (Continue m) w' => inv m /\ follows w w'
             | Raises e w' =>
                 follows w w' /\ ((e = EOFError /\ stdin w' = []) \/ exc e)
             end).
  { intros c Hc. unfold bind. specialize (Hc w).
    destruct (c w) as [m w' | e w']; cbn in *; tauto. }
  assert (Hgo' : forall (c : io unit),
             behaves c anything exc ->
             match bind c (fun _ => ret (Continue movies)) w with
             | Returns Break w' => choice = 0 /\ stdin w' = stdin w
             | Returns (Continue m) w' => inv m /\ follows w w'
             | Raises e w' =>
                 follows w w' /\ ((e = EOFError /\ stdin w' = []) \/ exc e)
             end).
  { intros c Hc. unfold bind. specialize (Hc w).
    destruct (c w) as [m w' | e w']; cbn in *; tauto. }
  unfold dispatch.
  destruct (Z.eqb_spec choice 0) as [-> | H0].
  { destruct w; cbn. auto. }
  destruct (choice =? 1); [apply Hgo'; auto |].
  destruct (choice =? 2); [apply Hgo; auto |].
  destruct (choice =? 3); [apply Hgo; auto |].
  destruct (choice =? 4); [apply Hgo'; auto |].
  apply Hgo'. apply behaves_print.
Qed.

Lemma menu_pass_outcome (movies : dict) (w : world) :
  inv movies ->
  match menu_pass movies w with
  | Returns Break w' =>
      exists line, stdin w = line :: stdin w' /\ py_int line = Some 0
  | Returns (Continue m) w' =>
      inv m /\ exists line read, stdin w = line :: read ++ stdin w'
  | Raises e w' =>
      follows w w' /\ ((e = EOFError /\ stdin w' = []) \/ exc e)
  end.
Proof.
  intros Hinv. destruct w as [[| line rest] out d].
  - rewrite menu_pass_at_end. cbn. split; [now exists [] | now left].
  - rewrite menu_pass_reads. destruct (py_int line) as [choice |] eqn:E.
    + pose proof (dispatch_outcome movies choice
                    (World rest (out ++ menu_lines ++ [selection_prompt]) d)
                    Hinv) as H.
      destruct (dispatch _ _ _) as [[| m] w' | e w']; cbn [stdin] in *.
      * destruct H as [-> Hs]. exists line. now rewrite Hs.
      * destruct H as [Hm [read Hr]]. cbn [stdin] in Hr.
        split; [exact Hm |]. exists line, read. now rewrite Hr.
      * destruct H as [[read Hr] He]. cbn [stdin] in Hr.
        split; [| exact He]. exists (line :: read). cbn. now rewrite Hr.
    + split; [exact Hinv |]. now exists line, [].
Qed.

Lemma menu_loop_outcome (fuel : nat) :
  forall (movies : dict) (w : world),
    inv movies -> (length (stdin w) < fuel)%nat ->
    match menu_loop fuel movies w with
    | Returns _ w' =>
        exists read line,
          stdin w = read ++ line :: stdin w' /\ py_int line = Some 0
    | Raises e w' =>
        follows w w' /\ ((e = EOFError /\ stdin w' = []) \/ exc e)
    end.
Proof.
  induction fuel as [| fuel IH]; intros movies w Hinv Hf; [lia |].
  cbn [menu_loop]. unfold bind.
  pose proof (menu_pass_outcome movies w Hinv) as Hp.
  destruct (menu_pass movies w) as [[| m] w1 | e w1].
  - destruct Hp as (line & Hl & H0). cbn [ret]. now exists [], line.
  - destruct Hp as (Hm & line & read & Hr).
    assert (Hf1 : (length (stdin w1) < fuel)%nat).
    { rewrite Hr in Hf. cbn [length] in Hf. rewrite length_app in Hf. lia. }
    specialize (IH m w1 Hm Hf1).
    destruct (menu_loop fuel m w1) as [[] w2 | e w2].
    + destruct IH as (read' & line' & Hr' & H0).
      exists (line :: read ++ read'), line'. split; [| exact H0].
      rewrite Hr, Hr'. cbn. now rewrite <- app_assoc.
    + destruct IH as [[read' Hr'] He]. split; [| exact He].
      exists (line :: read ++ read'). rewrite Hr, Hr'. cbn.
      now rewrite <- app_assoc.
  - exact Hp.
Qed.

End MenuLoop.


Lemma run_menu_any (movies : dict) (w : world) :
  match run_menu movies w with
  | Returns _ w' =>
      exists read line,
        stdin w = read ++ line :: stdin w' /\ py_int line = Some 0
  | Raises e w' => e <> OutOfFuel
  end.
Proof.
  unfold run_menu, with_fuel.
  pose proof (menu_loop_outcome anything python_exception
                (fun m _ => behaves_list_movies_any m)
                (fun m _ => behaves_display_statistics_any m)
                (fun m _ => behaves_weaken _ _ _ _ _
                              (fun a _ => I) (fun e (H : no_exception e) => match H with end)
                              (behaves_add_movie m))
                (fun m _ => behaves_weaken _ _ _ _ _
                              (fun a _ => I) (fun e (H : no_exception e) => match H with end)
                              (behaves_delete_movie m))
                (S (length (stdin w))) movies w I (Nat.lt_succ_diag_r _)) as H.
  destruct (menu_loop _ _ _) as [a w' | e w']; [exact H |].
  destruct H as [_ [[-> _] | H]]; [discriminate | exact H].
Qed.

(** The loops of the model are never cut short: [main] returns or raises a
    Python exception. *)
Lemma main_never_out_of_fuel (w w' : world) :
  main w <> Raises OutOfFuel w'.
Proof.
  unfold main, bind. intros H.
  destruct (load_movies FILE_NAME w) as [movies w1 | e w1] eqn:El.
  - pose proof (run_menu_any movies w1) as Hr. unfold run_menu in Hr.
    rewrite H in Hr. now apply Hr.
  - injection H as -> _. revert El.
    unfold load_movies, try_except, bind, open_and_load.
    destruct (disk w !! FILE_NAME) as [f |]; [| discriminate].
    destruct (denied f); [discriminate |].
    destruct (holds f); [discriminate |].
    destruct (decode j); discriminate.
Qed.

(* ================================================================= *)
(** ** C7: the menu loop *)




(* ================================================================= *)
(** ** [list_movies] *)

Lemma subscript_fields (details rating year : pyval) (w : world) :
  has_fields details rating year ->
  subscript details "rating" w = Returns rating w /\
  subscript details "year" w = Returns year w.
Proof.
  intros (d & -> & Hr & Hy). unfold subscript. now rewrite Hr, Hy.
Qed.

Lemma print_row (item : string * pyval) (row : string * pyval * pyval)
    ins out d :
  listed item row ->
  (rating ← subscript (snd item) "rating";
   year ← subscript (snd item) "year";
   print [Text "  "; Text (fst item); Text " - Rating: "; Value rating;
          Text ", Year: "; Value year]) (World ins out d) =
  Returns tt (World ins (out ++ [row_line row]) d).
Proof.
  intros [Ht Hf].
  rewrite (bind_returns _ _ _ _ _ (proj1 (subscript_fields _ _ _ _ Hf))).
  rewrite (bind_returns _ _ _ _ _ (proj2 (subscript_fields _ _ _ _ Hf))).
  now rewrite Ht.
Qed.

Lemma list_rows (items : dict) (rows : list (string * pyval * pyval)) :
  Forall2 listed items rows ->
  forall ins out d,
    for_each
      (fun item =>
         let title := fst item in
         let details := snd item in
         rating ← subscript details "rating";
         year ← subscript details "year";
         print [Text "  "; Text title; Text " - Rating: "; Value rating;
                Text ", Year: "; Value year])
      items (World ins out d) =
    Returns tt (World ins (out ++ List.map row_line rows) d).
Proof.
  induction 1 as [| item row items rows Hi _ IH]; intros ins out d.
  - cbn. now rewrite app_nil_r.
  - cbn [for_each List.map]. cbv zeta.
    rewrite (bind_returns _ _ _ _ _ (print_row item row ins out d Hi)).
    rewrite IH. now rewrite <- app_assoc.
Qed.

(** X1.  [list_movies] prints "No movies found." for the empty catalog.
    For a catalog whose entries all have a rating and a year (of any kind),
    it prints the heading and then one line per entry, in iteration order,
    with the title, the rating and the year; it reads no input, writes no
    file and raises nothing. *)
Theorem list_movies_lists (movies : dict)
    (rows : list (string * pyval * pyval)) (w : world) :
  Forall2 listed movies rows ->
  list_movies movies w =
  Returns tt
    (World (stdin w)
       (stdout w ++
        match rows with
        | [] => [Print [Text "No movies found."]]
        | _ => listing_heading :: List.map row_line rows
        end)
       (disk w)).
Proof.
  intros H. destruct w as [ins out d]. unfold list_movies.
  destruct H as [| item row items rows Hi Hrest]; [reflexivity |].
  cbn [dict_is_empty]. rewrite run_print.
  rewrite (list_rows (item :: items) (row :: rows)
             (List.Forall2_cons item row Hi Hrest)).
  unfold listing_heading. now rewrite <- app_assoc.
Qed.

Lemma list_movies_lists_witness :
  list_movies [("Alien", movie 8.5 1979); ("Odd", PDict [("year", PNone); ("rating", PStr "high")])]
    (empty_world ["1"]) =
  Returns tt
    (World ["1"]
       [listing_heading;
        Print [Text "  "; Text "Alien"; Text " - Rating: "; Value (PFloat 8.5);
               Text ", Year: "; Value (PInt 1979)];
        Print [Text "  "; Text "Odd"; Text " - Rating: "; Value (PStr "high");
               Text ", Year: "; Value PNone]]
       ∅).
Proof.
  apply (list_movies_lists
           [("Alien", movie 8.5 1979);
            ("Odd", PDict [("year", PNone); ("rating", PStr "high")])]
           [("Alien", PFloat 8.5, PInt 1979); ("Odd", PStr "high", PNone)]
           (empty_world ["1"])).
  repeat constructor; eexists; repeat split; reflexivity.
Defined.

Lemma for_each_app {A} (f : A -> io unit) (l1 l2 : list A) (w w1 : world) :
  for_each f l1 w = Returns tt w1 ->
  for_each f (l1 ++ l2) w = for_each f l2 w1.
Proof.
  revert w. induction l1 as [| a l1 IH]; intros w H; cbn [for_each app] in *.
  - now injection H as <-.
  - unfold bind in *. destruct (f a w) as [[] w' | e w']; [| discriminate].
    now apply IH.
Qed.

(** X2.  [list_movies] checks nothing beforehand: it prints the heading and
    the line of every entry up to the first one it cannot format, then
    raises, and the entries after that are not shown.  The error is
    [TypeError] for an entry that is not a dictionary, [KeyError] for a
    dictionary without a rating, or with a rating but without a year.  No
    input is read and no file written. *)
Theorem list_movies_stops (good : dict) (rows : list (string * pyval * pyval))
    (title : string) (details : pyval) (rest : dict) (w : world) :
  Forall2 listed good rows ->
  let shown := stdout w ++ listing_heading :: List.map row_line rows in
  let fails e :=
    list_movies (good ++ (title, details) :: rest) w =
    Raises e (World (stdin w) shown (disk w)) in
  ((forall d, details <> PDict d) -> fails TypeError) /\
  (forall d, details = PDict d -> dict_get d "rating" = None ->
             fails (KeyError "rating")) /\
  (forall d r, details = PDict d -> dict_get d "rating" = Some r ->
               dict_get d "year" = None -> fails (KeyError "year")).
Proof.
  intros H shown fails. subst fails shown. destruct w as [ins out d0].
  cbn [stdin stdout disk].
  assert (Hrun : forall e,
             subscript details "rating" (World ins (out ++ listing_heading :: List.map row_line rows) d0) =
               Raises e (World ins (out ++ listing_heading :: List.map row_line rows) d0) \/
             (exists r,
                subscript details "rating" (World ins (out ++ listing_heading :: List.map row_line rows) d0) =
                  Returns r (World ins (out ++ listing_heading :: List.map row_line rows) d0) /\
                subscript details "year" (World ins (out ++ listing_heading :: List.map row_line rows) d0) =
                  Raises e (World ins (out ++ listing_heading :: List.map row_line rows) d0)) ->
             list_movies (good ++ (title, details) :: rest) (World ins out d0) =
             Raises e (World ins (out ++ listing_heading :: List.map row_line rows) d0)).
  { intros e He. unfold list_movies.
    replace (dict_is_empty (good ++ (title, details) :: rest)) with false
      by (now destruct good).
    rewrite run_print.
    rewrite (for_each_app _ good _ _ _
               (list_rows good rows H ins (out ++ [listing_heading]) d0)).
    rewrite <- app_assoc. cbn [app for_each]. cbv zeta. cbn [fst snd].
    unfold bind at 1. unfold bind at 1.
    destruct He as [-> | (r & -> & He)]; [reflexivity |].
    unfold bind at 1. now rewrite He. }
  repeat split.
  - intros Hd. apply Hrun. left. unfold subscript.
    destruct details; try reflexivity. now destruct (Hd d).
  - intros d -> Hr. apply Hrun. left. unfold subscript. now rewrite Hr.
  - intros d r -> Hr Hy. apply Hrun. right. exists r. unfold subscript.
    now rewrite Hr, Hy.
Qed.

Lemma list_movies_stops_witness :
  list_movies [("Alien", movie 8.5 1979); ("Odd", PDict [("rating", PInt 3)]);
               ("Heat", movie 8.2 1995)] (empty_world []) =
  Raises (KeyError "year")
    (World []
       [listing_heading;
        Print [Text "  "; Text "Alien"; Text " - Rating: "; Value (PFloat 8.5);
               Text ", Year: "; Value (PInt 1979)]]
       ∅).
Proof.
  apply (proj2 (proj2 (list_movies_stops
                         [("Alien", movie 8.5 1979)]
                         [("Alien", PFloat 8.5, PInt 1979)]
                         "Odd" (PDict [("rating", PInt 3)])
                         [("Heat", movie 8.2 1995)] (empty_world [])
                         ltac:(repeat constructor; eexists; repeat split;
                               reflexivity)))
           [("rating", PInt 3)] (PInt 3));
    reflexivity.
Defined.

(* ================================================================= *)
(** ** [display_statistics]: all four lines or none *)

Lemma read_ratings_any (movies : dict) (w : world) :
  match map_io (fun item => subscript (snd item) "rating") movies w with
  | Returns rs w' =>
      w' = w /\ length rs = length movies /\
      forall xs, rs = List.map PFloat xs -> float_ratings movies = Some xs
  | Raises e w' => w' = w /\ (e = TypeError \/ e = KeyError "rating")
  end.
Proof.
  induction movies as [| [title details] rest IH]; cbn [map_io].
  - cbn. repeat split. now intros [| ? ?] [=].
  - unfold bind at 1. cbn [snd].
    unfold subscript at 1. destruct details; cbn; auto.
    destruct (dict_get d "rating") as [r |] eqn:Er; cbn; auto.
    unfold bind at 1.
    destruct (map_io _ rest w) as [rs w' | e w']; cbn; [| exact IH].
    destruct IH as (-> & Hlen & Hf). repeat split; [now rewrite Hlen |].
    intros [| x xs] [=]. subst r. now rewrite (Hf xs).
Qed.

Lemma as_floats_any (data : list pyval) (w : world) :
  match map_io as_float data w with
  | Returns xs w' => w' = w /\ data = List.map PFloat xs
  | Raises e w' => w' = w /\ e = Unmodelled
  end.
Proof.
  induction data as [| v data IH]; cbn [map_io]; [now cbn |].
  unfold bind at 1.
  destruct v; cbn; auto.
  unfold bind at 1.
  destruct (map_io as_float data w) as [xs w' | e w']; cbn; [| exact IH].
  destruct IH as [-> ->]. auto.
Qed.

(** X3.  On a non-empty catalog [display_statistics] does all its
    computing before its first [print]: when it raises, nothing has been
    printed, read or written, and when it returns it has printed exactly
    the four lines average, median, best, worst.  Its branch "No ratings
    available" is never taken, and the empty-data errors of
    [statistics.mean], [statistics.median], [max] and [min] never occur.
    (Ratings that are integers or booleans are not modelled: that case,
    marked [Unmodelled], is left open.) *)
Theorem display_statistics_all_or_nothing (movies : dict) (w : world) :
  movies <> [] ->
  match display_statistics movies w with
  | Returns _ w' =>
      exists average median highest lowest best worst,
        w' =
        World (stdin w)
          (stdout w ++
           statistics_lines average median highest lowest best worst)
          (disk w)
  | Raises e w' =>
      e <> Unmodelled ->
      w' = w /\ e <> StatisticsError /\ e <> ValueError
  end.
Proof.
  intros Hne. destruct movies as [| item rest]; [congruence |].
  set (movies := item :: rest) in *.
  destruct (float_ratings movies) as [[| first others] |] eqn:Ef.
  - destruct item. apply float_ratings_cons in Ef as (? & ? & [=] & _).
  - rewrite (display_statistics_floats movies first others w Ef).
    cbv zeta. eexists _, _, _, _, _, _. reflexivity.
  - unfold display_statistics. cbn [dict_is_empty movies]. fold movies.
    unfold bind at 1. pose proof (read_ratings_any movies w) as Hr.
    destruct (map_io _ movies w) as [rs w' | e w'].
    + destruct Hr as (-> & Hlen & Hf).
      destruct rs as [| r rs]; [discriminate |].
      unfold bind at 1. unfold statistics_mean.
      destruct (forallb is_number (r :: rs));
        [| cbn; intros _; repeat split; discriminate].
      unfold bind at 1. pose proof (as_floats_any (r :: rs) w) as Ha.
      destruct (map_io as_float (r :: rs) w) as [xs w' | e w'].
      * destruct Ha as [-> Ha]. rewrite (Hf xs Ha) in Ef. discriminate.
      * destruct Ha as [-> ->]. intros Hu. now destruct Hu.
    + destruct Hr as [-> [-> | ->]]; intros _; repeat split; discriminate.
Qed.

Lemma display_statistics_all_or_nothing_witness :
  match display_statistics [("Odd", PDict [("rating", PStr "high")])]
          (empty_world ["4"]) with
  | Returns _ w' =>
      exists average median highest lowest best worst,
        w' =
        World ["4"]
          ([] ++ statistics_lines average median highest lowest best worst) ∅
  | Raises e w' =>
      e <> Unmodelled ->
      w' = empty_world ["4"] /\ e <> StatisticsError /\ e <> ValueError
  end.
Proof.
  apply (display_statistics_all_or_nothing
           [("Odd", PDict [("rating", PStr "high")])] (empty_world ["4"])).
  discriminate.
Defined.


Lemma read_ratings_rated (movies : dict) (rs : list pyval) (w : world) :
  Forall2 rated movies rs ->
  map_io (fun item => subscript (snd item) "rating") movies w = Returns rs w.
Proof.
  induction 1 as [| item r movies rs (d & Hd & Hr) _ IH]; [reflexivity |].
  cbn [map_io]. unfold bind at 1. unfold subscript at 1. rewrite Hd, Hr.
  cbn [ret]. now rewrite (bind_returns _ _ _ _ _ IH).
Qed.

Lemma read_ratings_stops (good : dict) (rs : list pyval) (bad : string * pyval)
    (rest : dict) (e : exn) (w : world) :
  Forall2 rated good rs ->
  subscript (snd bad) "rating" w = Raises e w ->
  map_io (fun item => subscript (snd item) "rating") (good ++ bad :: rest) w =
  Raises e w.
Proof.
  intros H He.
  induction H as [| item r good rs (d & Hd & Hr) _ IH]; cbn [map_io app].
  - unfold bind. now rewrite He.
  - unfold bind at 1. unfold subscript at 1. rewrite Hd, Hr. cbn [ret].
    unfold bind at 1. now rewrite IH.
Qed.

(** X4.  The errors of [display_statistics], each raised before anything is
    printed: [TypeError] at the first entry that is not a dictionary,
    [KeyError] at the first dictionary without a rating, and, when every
    entry has a rating, [TypeError] from [statistics.mean] if some rating is
    not a number. *)
Theorem display_statistics_errors :
  (forall (good : dict) (rs : list pyval) (title : string) (details : pyval)
          (rest : dict) (w : world),
     Forall2 rated good rs ->
     ((forall d, details <> PDict d) ->
      display_statistics (good ++ (title, details) :: rest) w =
      Raises TypeError w) /\
     (forall d, details = PDict d -> dict_get d "rating" = None ->
      display_statistics (good ++ (title, details) :: rest) w =
      Raises (KeyError "rating") w)) /\
  (forall (movies : dict) (rs : list pyval) (w : world),
     movies <> [] -> Forall2 rated movies rs ->
     forallb is_number rs = false ->
     display_statistics movies w = Raises TypeError w).
Proof.
  split.
  - intros good rs title details rest w H.
    assert (Hgo : forall e,
               subscript details "rating" w = Raises e w ->
               display_statistics (good ++ (title, details) :: rest) w =
               Raises e w).
    { intros e He. unfold display_statistics.
      replace (dict_is_empty (good ++ (title, details) :: rest)) with false
        by (now destruct good).
      unfold bind at 1.
      now rewrite (read_ratings_stops good rs (title, details) rest e w H He). }
    split.
    + intros Hd. apply Hgo. unfold subscript.
      destruct details; try reflexivity. now destruct (Hd d).
    + intros d -> Hr. apply Hgo. unfold subscript. now rewrite Hr.
  - intros movies rs w Hne H Hn. unfold display_statistics.
    destruct movies as [| item movies]; [congruence |]. cbn [dict_is_empty].
    rewrite (bind_returns _ _ _ _ _ (read_ratings_rated _ rs w H)).
    destruct rs as [| r rs]; [inversion H |].
    unfold bind at 1. unfold statistics_mean. now rewrite Hn.
Qed.

Lemma display_statistics_errors_witness :
  display_statistics
    [("Alien", movie 8.5 1979); ("Odd", PDict [("year", PInt 1990)])]
    (empty_world []) = Raises (KeyError "rating") (empty_world []) /\
  display_statistics
    [("Alien", movie 8.5 1979); ("Odd", PDict [("rating", PNone)])]
    (empty_world []) = Raises TypeError (empty_world []).
Proof.
  split.
  - apply (proj2 (proj1 display_statistics_errors
                    [("Alien", movie 8.5 1979)] [PFloat 8.5]
                    "Odd" (PDict [("year", PInt 1990)]) [] (empty_world [])
                    ltac:(repeat constructor; eexists; split; reflexivity))
             [("year", PInt 1990)]); reflexivity.
  - apply (proj2 display_statistics_errors
             [("Alien", movie 8.5 1979); ("Odd", PDict [("rating", PNone)])]
             [PFloat 8.5; PNone] (empty_world []));
      [discriminate
      | repeat constructor; eexists; split; reflexivity
      | reflexivity].
Defined.

(* ================================================================= *)
(** ** The median of an odd number of ratings *)




(* ================================================================= *)
(** ** What [save_movies], [add_movie] and [delete_movie] do to the disk *)

Lemma save_movies_disk (file_name : string) (movies : dict) (w : world) :
  exists w',
    save_movies file_name movies w = Returns tt w' /\
    stdin w' = stdin w /\
    disk w' = disk_after_save file_name movies (disk w).
Proof.
  unfold save_movies, try_except, open_and_dump, disk_after_save.
  destruct (disk w !! file_name) as [f |]; [destruct (denied f) |]; cbn;
    eexists; split; reflexivity || auto.
Qed.


Lemma rstrip_idempotent (s : string) : rstrip (rstrip s) = rstrip s.
Proof.
  induction s as [| c r IH]; cbn [rstrip]; [reflexivity |].
  destruct (rstrip r) as [| c' r'] eqn:E.
  - destruct (is_space c) eqn:Ec; cbn [rstrip]; [reflexivity |].
    now rewrite Ec.
  - cbn [rstrip]. cbn [rstrip] in IH. now rewrite IH.
Qed.

Lemma lstrip_rstrip_lstrip (s : string) :
  lstrip (rstrip (lstrip s)) = rstrip (lstrip s).
Proof.
  induction s as [| c r IH]; cbn [lstrip]; [reflexivity |].
  destruct (is_space c) eqn:Ec; [exact IH |].
  cbn [rstrip]. destruct (rstrip r); rewrite ?Ec; cbn [lstrip];
    now rewrite Ec.
Qed.

(** [strip] leaves a trimmed string as it is. *)
Lemma strip_idempotent (s : string) : strip (strip s) = strip s.
Proof.
  unfold strip. rewrite lstrip_rstrip_lstrip. apply rstrip_idempotent.
Qed.

Lemma title_loop_outcome (fuel : nat) :
  forall (title : string) (w : world),
    strip title = title ->
    (length (stdin w) < fuel)%nat ->
    match title_loop fuel title w with
    | Returns t w' =>
        t <> "" /\ strip t = t /\ follows w w' /\ disk w' = disk w
    | Raises e w' => e = EOFError /\ stdin w' = [] /\ disk w' = disk w
    end.
Proof.
  induction fuel as [| fuel IH]; intros title w Hs Hf; [lia |].
  cbn [title_loop]. destruct title as [| c title]; cbn [str_is_empty].
  - unfold bind, input. destruct w as [[| line rest] out d];
      cbn [stdin stdout disk length] in *; [now cbn |].
    specialize (IH (strip line) (World rest (out ++ [Prompt "Title cannot be empty. Enter movie title: "]) d)
                  (strip_idempotent line)).
    cbn [stdin length] in IH.
    destruct (title_loop fuel (strip line) _) as [t w' | e w'].
    + destruct IH as (Ht & Hst & [read Hr] & Hd); [lia |]. cbn in Hr, Hd.
      repeat split; auto. exists (line :: read). cbn. now rewrite Hr.
    + apply IH. lia.
  - cbn. repeat split; [discriminate | exact Hs | apply follows_refl].
Qed.

Lemma add_movie_rated_outcome (movies : dict) (title : string) (w : world) :
  match add_movie_rated movies title w with
  | Returns m w' =>
      follows w w' /\
      ((m = movies /\ disk w' = disk w) \/
       (exists x n,
          rating_in_range x = true /\ year_in_range n = true /\
          m = dict_set movies title (movie x n) /\
          disk w' = disk_after_save FILE_NAME m (disk w)))
  | Raises e w' => e = EOFError /\ stdin w' = [] /\ disk w' = disk w
  end.
Proof.
  destruct w as [[| r rest] out d]; [now cbn |].
  destruct (rating_refused_dec r) as [Hr | (x & Hx & Hok)].
  { rewrite add_movie_rated_refused by exact Hr. cbn [stdin disk].
    split; [now exists [r] | now left]. }
  destruct rest as [| y rest].
  { unfold add_movie_rated, try_except, bind, input, float_of.
    cbn [stdin stdout disk]. rewrite Hx. cbn [ret].
    unfold rating_in_range in Hok. rewrite Hok. now cbn. }
  destruct (year_refused_dec y) as [Hy | (n & Hn & Hnok)].
  { rewrite (add_movie_year_refused movies title r x y rest out d Hx Hok Hy).
    cbn [stdin disk]. split; [now exists [r; y] | now left]. }
  rewrite (add_movie_stored movies title r x y n rest out d Hx Hok Hn Hnok).
  destruct (save_movies_disk FILE_NAME (dict_set movies title (movie x n))
              (World rest (out ++ [rating_prompt; year_prompt]) d))
    as (w1 & Hs & Hin & Hd).
  rewrite (bind_returns _ _ _ _ _ Hs). destruct w1 as [ins1 out1 d1].
  rewrite run_print. cbn [ret stdin disk] in *. subst ins1.
  split; [now exists [r; y] |]. right. exists x, n. auto.
Qed.

Lemma add_movie_outcome (movies : dict) (w : world) :
  match add_movie movies w with
  | Returns m w' =>
      follows w w' /\
      ((m = movies /\ disk w' = disk w) \/
       (exists title x n,
          title <> "" /\ strip title = title /\
          rating_in_range x = true /\ year_in_range n = true /\
          m = dict_set movies title (movie x n) /\
          disk w' = disk_after_save FILE_NAME m (disk w)))
  | Raises e w' => e = EOFError /\ stdin w' = [] /\ disk w' = disk w
  end.
Proof.
  rewrite add_movie_unfold.
  destruct w as [[| line rest] out d]; [now cbn |].
  rewrite run_input. unfold bind at 1, with_fuel.
  pose proof (title_loop_outcome (S (length rest)) (strip line)
                (World rest (out ++ [Prompt "Enter movie title: "]) d)
                (strip_idempotent line) (Nat.lt_succ_diag_r _)) as Ht.
  cbn [stdin] in *.
  destruct (title_loop _ _ _) as [title w1 | e w1]; [| exact Ht].
  destruct Ht as (Hne & Hst & [read Hr] & Hd). cbn [stdin disk] in Hr, Hd.
  pose proof (add_movie_rated_outcome movies title w1) as Ha.
  destruct (add_movie_rated movies title w1) as [m w2 | e w2].
  - destruct Ha as ([read' Hr'] & Ha). cbn [stdin disk]. split.
    + exists (line :: read ++ read'). cbn. rewrite Hr, Hr'.
      now rewrite <- app_assoc.
    + destruct Ha as [[-> Hd2] | (x & n & Hx & Hn & -> & Hd2)].
      * left. split; [reflexivity | congruence].
      * right. exists title, x, n. repeat split; auto. now rewrite Hd2, Hd.
  - destruct Ha as (-> & Hs & Hd2). cbn [disk]. repeat split; congruence.
Qed.

Lemma delete_movie_outcome (movies : dict) (w : world) :
  match delete_movie movies w with
  | Returns m w' =>
      follows w w' /\
      ((m = movies /\ disk w' = disk w) \/
       (exists title,
          strip title = title /\ dict_contains movies title = true /\
          m = dict_del movies title /\
          disk w' = disk_after_save FILE_NAME m (disk w)))
  | Raises e w' => e = EOFError /\ stdin w' = [] /\ disk w' = disk w
  end.
Proof.
  unfold delete_movie.
  destruct w as [[| line rest] out d]; [now cbn |].
  rewrite run_input.
  destruct (dict_contains movies (strip line)) eqn:Hc.
  - destruct (save_movies_disk FILE_NAME (dict_del movies (strip line))
                (World rest (out ++ [Prompt "Enter movie title to delete: "]) d))
      as (w1 & Hs & Hin & Hd).
    rewrite (bind_returns _ _ _ _ _ Hs). destruct w1 as [ins1 out1 d1].
    rewrite run_print. cbn [ret stdin disk] in *. subst ins1.
    split; [now exists [line] |]. right. exists (strip line).
    auto using strip_idempotent.
  - rewrite run_print. cbn [ret stdin disk].
    split; [now exists [line] | now left].
Qed.

(** X6.  [add_movie] changes the file only when it has accepted a title, a
    rating and a year.  Whatever is typed, it ends in one of three ways: it
    returns the catalog as it was with the disk as it was; or it returns
    the catalog with one entry set, for a non-empty trimmed title and a
    rating and year in range, after saving exactly that catalog; or the input ends
    first, and it raises [EOFError] with the disk as it was. *)
Theorem add_movie_writes_only_on_success (movies : dict) (w : world) :
  match add_movie movies w with
  | Returns m w' =>
      (m = movies /\ disk w' = disk w) \/
      (exists title x n,
         title <> "" /\ strip title = title /\
         rating_in_range x = true /\ year_in_range n = true /\
         m = dict_set movies title (movie x n) /\
         disk w' = disk_after_save FILE_NAME m (disk w))
  | Raises e w' => e = EOFError /\ stdin w' = [] /\ disk w' = disk w
  end.
Proof.
  pose proof (add_movie_outcome movies w) as H.
  destruct (add_movie movies w); tauto.
Qed.


Lemma dict_get_set_other (d : dict) (k other : string) (v : pyval) :
  other <> k -> dict_get (dict_set d k v) other = dict_get d other.
Proof.
  intros Hne. induction d as [| [k' v'] d IH]; cbn.
  - destruct (String.eqb_spec k other); [congruence | reflexivity].
  - destruct (String.eqb_spec k' k) as [-> | Hk]; cbn.
    + destruct (String.eqb_spec k other); [congruence | reflexivity].
    + now rewrite IH.
Qed.








(* ================================================================= *)
(** ** Any catalog that was loaded can be saved and loaded again *)

Lemma dict_of_pairs_keys (pairs acc : dict) :
  unique_titles acc ->
  unique_titles (fold_left (fun d kv => dict_set d (fst kv) (snd kv)) pairs acc).
Proof.
  revert acc. induction pairs as [| [k v] pairs IH]; intros acc H; cbn;
    [exact H |].
  apply IH. now apply dict_set_unique.
Qed.

Lemma dict_set_Forall (P : string * pyval -> Prop) (d : dict) k v :
  Forall P d -> P (k, v) -> Forall P (dict_set d k v).
Proof.
  intros Hd Hkv. induction Hd as [| [k' v'] d Hx Hd IH]; cbn.
  - now constructor.
  - destruct (String.eqb_spec k' k) as [-> | Hne]; constructor; auto.
Qed.

Lemma dict_del_Forall (P : string * pyval -> Prop) (d : dict) k :
  Forall P d -> Forall P (dict_del d k).
Proof.
  intros Hd. unfold dict_del.
  induction Hd as [| [k' v'] d Hx Hd IH]; cbn; [constructor |].
  destruct (negb (String.eqb k' k)); [constructor |]; auto.
Qed.

Lemma dict_of_pairs_Forall (P : string * pyval -> Prop) (pairs acc : dict) :
  Forall P acc -> Forall P pairs ->
  Forall P (fold_left (fun d kv => dict_set d (fst kv) (snd kv)) pairs acc).
Proof.
  intros Ha Hp. revert acc Ha.
  induction Hp as [| [k v] pairs Hx Hp IH]; intros acc Ha; cbn; [exact Ha |].
  apply IH. now apply dict_set_Forall.
Qed.

(** What [json.load] builds has each key once in every dictionary. *)
Lemma decode_well_keyed : forall j : json, well_keyed (decode j).
Proof.
  fix IH 1. intros [| b | z | x | s | l | ms]; cbn [decode];
    try now constructor.
  - constructor.
    induction l as [| j l IHl]; cbn; constructor; [apply IH | exact IHl].
  - constructor.
    + apply (dict_of_pairs_keys _ []). constructor.
    + apply dict_of_pairs_Forall; [constructor |].
      induction ms as [| [k j] ms IHms]; cbn; constructor;
        [apply IH | exact IHms].
Qed.

(** [json.load] gives back what [json.dump] wrote. *)
Lemma decode_encode : forall v : pyval, well_keyed v -> decode (encode v) = v.
Proof.
  fix IH 1. intros [| b | z | x | s | l | d] H; cbn [encode decode];
    try reflexivity.
  - f_equal. inversion H as [| | | | | l' Hl |]; subst.
    rewrite List.map_map.
    induction l as [| v l IHl]; cbn; [reflexivity |].
    apply List.Forall_cons_iff in Hl as [Hv Hl].
    f_equal; [now apply IH | apply IHl; [now constructor | exact Hl]].
  - f_equal. inversion H as [| | | | | | d' Hu Hd]; subst.
    rewrite List.map_map. cbn [fst snd].
    replace (List.map (fun x => (fst x, decode (encode (snd x)))) d) with d;
      [now apply dict_of_pairs_unique |].
    clear H Hu. induction d as [| [k v] d IHd]; cbn; [reflexivity |].
    apply List.Forall_cons_iff in Hd as [Hv Hd]. cbn [snd] in Hv.
    f_equal; [f_equal; symmetry; now apply IH | now apply IHd].
Qed.

Lemma load_movies_document (file_name : string) (w : world) movies w' :
  load_movies file_name w = Returns movies w' ->
  well_keyed (PDict movies) /\ stdin w' = stdin w /\ disk w' = disk w /\
  writable w file_name.
Proof.
  unfold load_movies, try_except, bind, open_and_load, writable.
  destruct (disk w !! file_name) as [f |] eqn:Ef.
  - destruct (denied f) eqn:Ed; [discriminate |].
    destruct (holds f) as [| j]; cbn.
    + intros [= <- <-]. repeat split; auto.
      * constructor; constructor.
      * now intros f' [= <-].
    + pose proof (decode_well_keyed j) as Hj.
      destruct (decode j); cbn; intros [= <- <-]; repeat split; auto;
        try (constructor; constructor); now intros f' [= <-].
  - cbn. intros [= <- <-]. repeat split; auto.
    + constructor; constructor.
    + discriminate.
Qed.

Lemma load_movies_saved (file_name : string) (movies : dict) ins out d :
  well_keyed (PDict movies) ->
  load_movies file_name
    (World ins out
       (<[file_name := File false (Document (encode (PDict movies)))]> d)) =
  Returns movies
    (World ins out
       (<[file_name := File false (Document (encode (PDict movies)))]> d)).
Proof.
  intros H. unfold load_movies, try_except, bind, open_and_load. cbn [disk].
  rewrite lookup_insert_eq. cbn [denied holds].
  now rewrite (decode_encode _ H).
Qed.

(** X10.  Whatever catalog [load_movies] returns, also one whose entries
    are not movie records, [save_movies] writes it without loss: loading
    the file again returns the same catalog.  (The process may write the
    file.) *)
Theorem load_save_load (file_name : string) (w w1 : world) (movies : dict) :
  load_movies file_name w = Returns movies w1 ->
  writable w file_name ->
  exists w2 w3,
    save_movies file_name movies w1 = Returns tt w2 /\
    load_movies file_name w2 = Returns movies w3 /\
    stdin w3 = stdin w /\ stdout w3 = stdout w1.
Proof.
  intros Hl Hw.
  destruct (load_movies_document _ _ _ _ Hl) as (Hk & Hin & Hd & _).
  destruct w1 as [ins1 out1 d1]. cbn [stdin disk] in *. subst.
  rewrite save_movies_writable by exact Hw.
  eexists _, _. split; [reflexivity |].
  rewrite (load_movies_saved _ _ _ _ _ Hk). now split.
Qed.

Lemma load_save_load_witness :
  exists w2 w3,
    save_movies FILE_NAME [("Heat", PStr "a film"); ("Alien", PList [PInt 8])]
      (world_with []
         (JObject [("Heat", JNull); ("Alien", JArray [JInt 8]);
                   ("Heat", JString "a film")])) = Returns tt w2 /\
    load_movies FILE_NAME w2 =
    Returns [("Heat", PStr "a film"); ("Alien", PList [PInt 8])] w3 /\
    stdin w3 = [] /\ stdout w3 = [].
Proof.
  refine (load_save_load FILE_NAME
            (world_with []
               (JObject [("Heat", JNull); ("Alien", JArray [JInt 8]);
                         ("Heat", JString "a film")]))
            (world_with []
               (JObject [("Heat", JNull); ("Alien", JArray [JInt 8]);
                         ("Heat", JString "a film")]))
            [("Heat", PStr "a film"); ("Alien", PList [PInt 8])] _ _).
  - vm_compute. reflexivity.
  - intros f Hf. vm_compute in Hf. injection Hf as <-. reflexivity.
Defined.

(* ================================================================= *)
(** ** The file and the catalog in memory *)

Lemma load_movies_same_disk (file_name : string) (w1 w2 : world) movies w1' :
  disk w1 = disk w2 ->
  load_movies file_name w1 = Returns movies w1' ->
  exists w2', load_movies file_name w2 = Returns movies w2'.
Proof.
  unfold load_movies, try_except, bind, open_and_load. intros <-.
  destruct (disk w1 !! file_name) as [f |]; cbn.
  - destruct (denied f); [discriminate |].
    destruct (holds f) as [| j]; cbn; [intros [= <- _]; eauto |].
    destruct (decode j); cbn; intros [= <- _]; eauto.
  - intros [= <- _]. eauto.
Qed.

Lemma well_keyed_set (movies : dict) (title : string) (x : float) (n : Z) :
  well_keyed (PDict movies) ->
  well_keyed (PDict (dict_set movies title (movie x n))).
Proof.
  intros H. inversion H as [| | | | | | d Hu Hd]; subst. constructor.
  - now apply dict_set_unique.
  - apply dict_set_Forall; [exact Hd |]. cbn [snd]. unfold movie.
    constructor; [| repeat constructor]. cbn.
    constructor; [intros [H' | []]; discriminate |].
    constructor; [intros [] | constructor].
Qed.

Lemma well_keyed_del (movies : dict) (title : string) :
  well_keyed (PDict movies) -> well_keyed (PDict (dict_del movies title)).
Proof.
  intros H. inversion H as [| | | | | | d Hu Hd]; subst. constructor.
  - now apply dict_del_unique.
  - now apply dict_del_Forall.
Qed.

Lemma mirrored_after_save (movies : dict) (w w' : world) :
  well_keyed (PDict movies) -> writable w FILE_NAME ->
  disk w' = disk_after_save FILE_NAME movies (disk w) ->
  mirrored movies w' /\ writable w' FILE_NAME.
Proof.
  intros Hk Hw Hd. unfold disk_after_save in Hd.
  assert (Hd' : disk w' =
                <[FILE_NAME := File false (Document (encode (PDict movies)))]>
                  (disk w)).
  { destruct (disk w !! FILE_NAME) as [f |] eqn:Ef; [| exact Hd].
    now rewrite (Hw f Ef) in Hd. }
  destruct w' as [ins' out' d']. cbn [disk] in Hd'. subst d'. split.
  - eexists. now apply load_movies_saved.
  - intros f. cbn [disk]. rewrite lookup_insert_eq. now intros [= <-].
Qed.

Lemma mirrored_perform (op : operation) (movies m : dict) (w w' : world) :
  well_keyed (PDict movies) -> writable w FILE_NAME -> mirrored movies w ->
  perform op movies w = Returns m w' ->
  well_keyed (PDict m) /\ writable w' FILE_NAME /\ mirrored m w'.
Proof.
  intros Hk Hw [w0 Hm] Hrun.
  assert (Hsame : m = movies /\ disk w' = disk w ->
                  well_keyed (PDict m) /\ writable w' FILE_NAME /\ mirrored m w').
  { intros [-> Hd]. split; [exact Hk |]. split.
    - unfold writable. now rewrite Hd.
    - apply (load_movies_same_disk _ w w' _ _ (eq_sym Hd) Hm). }
  destruct op; cbn [perform] in Hrun.
  - pose proof (add_movie_outcome movies w) as H. rewrite Hrun in H.
    destruct H as [_ [H | (title & x & n & _ & _ & _ & _ & -> & Hd)]];
      [now apply Hsame |].
    pose proof (well_keyed_set movies title x n Hk) as Hk'.
    destruct (mirrored_after_save _ w w' Hk' Hw Hd). auto.
  - pose proof (delete_movie_outcome movies w) as H. rewrite Hrun in H.
    destruct H as [_ [H | (title & _ & _ & -> & Hd)]]; [now apply Hsame |].
    pose proof (well_keyed_del movies title Hk) as Hk'.
    destruct (mirrored_after_save _ w w' Hk' Hw Hd). auto.
Qed.

(** X11.  While the process may write [movies.json], the file mirrors the
    memory: after [load_movies] and any sequence of [add_movie] and
    [delete_movie], whatever was typed, loading the file again gives
    exactly the catalog the program holds.  (With a file that may not be
    written the two part at the first refused write.) *)
Theorem file_mirrors_memory (ops : list operation) (start movies : dict)
    (w0 w1 w2 : world) :
  writable w0 FILE_NAME ->
  load_movies FILE_NAME w0 = Returns start w1 ->
  perform_all ops start w1 = Returns movies w2 ->
  exists w3, load_movies FILE_NAME w2 = Returns movies w3.
Proof.
  intros Hw Hl Hrun.
  destruct (load_movies_document _ _ _ _ Hl) as (Hk & _ & Hd & _).
  assert (Hw1 : writable w1 FILE_NAME) by (unfold writable; now rewrite Hd).
  assert (Hm : mirrored start w1).
  { apply (load_movies_same_disk _ w0 w1 _ _ (eq_sym Hd) Hl). }
  clear Hl Hd Hw. revert start w1 Hk Hw1 Hm Hrun.
  induction ops as [| op ops IH]; intros start w1 Hk Hw1 Hm Hrun;
    cbn [perform_all] in Hrun.
  - injection Hrun as <- <-. exact Hm.
  - unfold bind in Hrun.
    destruct (perform op start w1) as [m w' | e w'] eqn:E; [| discriminate].
    destruct (mirrored_perform op start m w1 w' Hk Hw1 Hm E) as (? & ? & ?).
    now apply (IH m w').
Qed.

Lemma file_mirrors_memory_witness :
  exists w3,
    load_movies FILE_NAME
      (World []
         [title_prompt; rating_prompt; year_prompt; added_message "Heat";
          Prompt "Enter movie title to delete: "; deleted_message "Alien"]
         {[ FILE_NAME :=
              File false (Document (encode (PDict [("Heat", movie 8.2 1995)]))) ]}) =
    Returns [("Heat", movie 8.2 1995)] w3.
Proof.
  refine (file_mirrors_memory [Add; Delete]
            [("Alien", PStr "?")] [("Heat", movie 8.2 1995)]
            (world_with ["Heat"; "8.2"; "1995"; "Alien"]
               (JObject [("Alien", JString "?")]))
            (world_with ["Heat"; "8.2"; "1995"; "Alien"]
               (JObject [("Alien", JString "?")]))
            _ _ _ _).
  - intros f Hf. vm_compute in Hf. injection Hf as <-. reflexivity.
  - vm_compute. reflexivity.
  - vm_compute. reflexivity.
Defined.

Lemma dict_set_In (d : dict) (k : string) (v : pyval) (item : string * pyval) :
  In item (dict_set d k v) -> In item d \/ item = (k, v).
Proof.
  induction d as [| [k' v'] d IH]; cbn.
  - intros [<- | []]. now right.
  - destruct (String.eqb_spec k' k) as [-> | Hne]; cbn.
    + intros [<- | H]; auto.
    + intros [<- | H]; auto. destruct (IH H); auto.
Qed.

(** X12.  The program itself never stores an entry it has not checked.
    In every catalog reached from a loaded file by any sequence of
    [add_movie] and [delete_movie], the titles are distinct, and each entry
    either is an entry of the loaded file, as it was there, or has a
    non-empty title and a movie record with rating and year in range. *)
Theorem unchecked_entries_come_from_the_file (ops : list operation)
    (start movies : dict) (w0 w1 w2 : world) :
  load_movies FILE_NAME w0 = Returns start w1 ->
  perform_all ops start w1 = Returns movies w2 ->
  unique_titles movies /\
  Forall (fun item =>
            In item start \/ (fst item <> "" /\ movie_ok (snd item)))
    movies.
Proof.
  intros Hl Hrun.
  destruct (load_movies_document _ _ _ _ Hl) as (Hk & _).
  assert (Hu : unique_titles start) by now inversion Hk.
  assert (Hall : Forall (fun item =>
                           In item start \/
                           (fst item <> "" /\ movie_ok (snd item))) start).
  { apply List.Forall_forall. auto. }
  clear Hl Hk. generalize dependent w1. revert Hu Hall.
  generalize start at 1 3 4 as now.
  induction ops as [| op ops IH]; intros now Hu Hall w1 Hrun;
    cbn [perform_all] in Hrun.
  - injection Hrun as <- <-. auto.
  - unfold bind in Hrun.
    destruct (perform op now w1) as [m w' | e w'] eqn:E; [| discriminate].
    apply (IH m) with (w1 := w'); [| | exact Hrun].
    + destruct op; cbn [perform] in E.
      * pose proof (add_movie_outcome now w1) as H. rewrite E in H.
        destruct H as [_ [[-> _] | (t & x & n & _ & _ & _ & _ & -> & _)]];
          [exact Hu | now apply dict_set_unique].
      * pose proof (delete_movie_outcome now w1) as H. rewrite E in H.
        destruct H as [_ [[-> _] | (t & _ & _ & -> & _)]];
          [exact Hu | now apply dict_del_unique].
    + destruct op; cbn [perform] in E.
      * pose proof (add_movie_outcome now w1) as H. rewrite E in H.
        destruct H as [_ [[-> _] | (t & x & n & Ht & _ & Hx & Hn & -> & _)]];
          [exact Hall |].
        apply dict_set_Forall; [exact Hall |]. right. cbn [fst snd].
        split; [exact Ht |]. now exists x, n.
      * pose proof (delete_movie_outcome now w1) as H. rewrite E in H.
        destruct H as [_ [[-> _] | (t & _ & _ & -> & _)]];
          [exact Hall | now apply dict_del_Forall].
Qed.

Lemma unchecked_entries_come_from_the_file_witness :
  unique_titles [("", PStr "?"); ("Heat", movie 8.2 1995)] /\
  Forall (fun item =>
            In item [("", PStr "?"); ("Alien", PInt 11)] \/
            (fst item <> "" /\ movie_ok (snd item)))
    [("", PStr "?"); ("Heat", movie 8.2 1995)].
Proof.
  refine (unchecked_entries_come_from_the_file [Add; Delete]
            [("", PStr "?"); ("Alien", PInt 11)]
            [("", PStr "?"); ("Heat", movie 8.2 1995)]
            (world_with ["Heat"; "8.2"; "1995"; "Alien"]
               (JObject [("", JString "?"); ("Alien", JInt 11)]))
            (world_with ["Heat"; "8.2"; "1995"; "Alien"]
               (JObject [("", JString "?"); ("Alien", JInt 11)]))
            (World []
               [title_prompt; rating_prompt; year_prompt; added_message "Heat";
                Prompt "Enter movie title to delete: "; deleted_message "Alien"]
               {[ FILE_NAME :=
                    File false
                      (Document
                         (encode (PDict [("", PStr "?");
                                         ("Heat", movie 8.2 1995)]))) ]})
            _ _).
  - vm_compute. reflexivity.
  - vm_compute. reflexivity.
Defined.

(** X13.  [load_movies] handles a missing file and a file that is not
    JSON, but not a file the process may not read: [PermissionError]
    passes through it, and [main] ends with that exception before it has
    printed the menu or read a line, whatever the input. *)
Theorem unreadable_file_stops_main (w : world) (f : file) :
  disk w !! FILE_NAME = Some f -> denied f = true ->
  load_movies FILE_NAME w = Raises PermissionError w /\
  main w = Raises PermissionError w.
Proof.
  intros Hf Hd.
  assert (Hl : load_movies FILE_NAME w = Raises PermissionError w).
  { unfold load_movies, try_except, bind, open_and_load.
    now rewrite Hf, Hd. }
  split; [exact Hl |]. rewrite main_unfold. now apply bind_raises.
Qed.

Lemma unreadable_file_stops_main_witness :
  load_movies FILE_NAME
    (World ["1"; "0"] [] {[ FILE_NAME := File true (Document (JObject [])) ]}) =
  Raises PermissionError
    (World ["1"; "0"] [] {[ FILE_NAME := File true (Document (JObject [])) ]}) /\
  main
    (World ["1"; "0"] [] {[ FILE_NAME := File true (Document (JObject [])) ]}) =
  Raises PermissionError
    (World ["1"; "0"] [] {[ FILE_NAME := File true (Document (JObject [])) ]}).
Proof.
  refine (unreadable_file_stops_main
            (World ["1"; "0"] []
               {[ FILE_NAME := File true (Document (JObject [])) ]})
            (File true (Document (JObject []))) _ _).
  - vm_compute. reflexivity.
  - reflexivity.
Defined.

(** X14.  [add_movie] and [delete_movie] look a title up only after
    trimming it, so an entry whose title starts or ends with white space
    (it can only come from the file) is out of their reach: no sequence of
    the two operations deletes it or changes it, whatever is typed. *)
Theorem untrimmed_titles_are_out_of_reach (ops : list operation)
    (movies m : dict) (w w' : world) (t : string) :
  strip t <> t ->
  perform_all ops movies w = Returns m w' ->
  dict_get m t = dict_get movies t.
Proof.
  intros Ht. revert movies w.
  induction ops as [| op ops IH]; intros movies w Hrun;
    cbn [perform_all] in Hrun.
  - now injection Hrun as <- <-.
  - unfold bind in Hrun.
    destruct (perform op movies w) as [m1 w1 | e w1] eqn:E; [| discriminate].
    rewrite (IH m1 w1 Hrun).
    destruct op; cbn [perform] in E.
    + pose proof (add_movie_outcome movies w) as H. rewrite E in H.
      destruct H as [_ [[-> _] | (k & x & n & _ & Hk & _ & _ & -> & _)]];
        [reflexivity |].
      apply dict_get_set_other. congruence.
    + pose proof (delete_movie_outcome movies w) as H. rewrite E in H.
      destruct H as [_ [[-> _] | (k & Hk & _ & -> & _)]]; [reflexivity |].
      apply dict_get_del_other. congruence.
Qed.

Lemma untrimmed_titles_are_out_of_reach_witness :
  dict_get [(" Heat", PInt 1)] " Heat" = dict_get [(" Heat", PInt 1)] " Heat".
Proof.
  refine (untrimmed_titles_are_out_of_reach [Delete]
            [(" Heat", PInt 1)] [(" Heat", PInt 1)]
            (empty_world [" Heat"])
            (World []
               [Prompt "Enter movie title to delete: ";
                Print [Text "Movie '"; Text "Heat"; Text "' not found."]] ∅)
            " Heat" _ _).
  - vm_compute. discriminate.
  - vm_compute. reflexivity.
Defined.

(* ================================================================= *)
(** ** What the program leaves alone *)

Lemma quiet_refl (w : world) : quiet w w.
Proof. now split. Qed.

Lemma quiet_trans (w1 w2 w3 : world) : quiet w1 w2 -> quiet w2 w3 -> quiet w1 w3.
Proof. unfold quiet. intros [-> ->] [-> ->]. now split. Qed.

Lemma untouched_elsewhere_trans (w1 w2 w3 : world) :
  untouched_elsewhere w1 w2 -> untouched_elsewhere w2 w3 ->
  untouched_elsewhere w1 w3.
Proof.
  unfold untouched_elsewhere. intros H1 H2 name Hn.
  now rewrite (H2 name Hn), (H1 name Hn).
Qed.

Lemma untouched_same_disk (w w' : world) :
  disk w' = disk w -> untouched_elsewhere w w'.
Proof. unfold untouched_elsewhere. now intros ->. Qed.

(** A frame rule for each construct, for any relation [R] between the
    world before and the world after that is reflexive and transitive and
    holds whenever input and disk are the same. *)
Section Frame.

Variable R : world -> world -> Prop.
Hypothesis R_refl : forall w, R w w.
Hypothesis R_trans : forall w1 w2 w3, R w1 w2 -> R w2 w3 -> R w1 w3.
Hypothesis R_quiet : forall w w', quiet w w' -> R w w'.
Hypothesis R_input : forall prompt, keeps R (input prompt).
Hypothesis R_load : keeps R (load_movies FILE_NAME).
Hypothesis R_save : forall movies, keeps R (save_movies FILE_NAME movies).

Lemma keeps_ret {A} (a : A) : keeps R (ret a).
Proof. intros w. apply R_refl. Qed.

Lemma keeps_raise {A} (e : exn) : keeps R (@raise A e).
Proof. intros w. apply R_refl. Qed.

Lemma keeps_bind {A B} (c : io A) (k : A -> io B) :
  keeps R c -> (forall a, keeps R (k a)) -> keeps R (bind c k).
Proof.
  intros Hc Hk w. unfold bind. specialize (Hc w).
  destruct (c w) as [a w' | e w']; cbn in *; [| exact Hc].
  exact (R_trans _ _ _ Hc (Hk a w')).
Qed.

Lemma keeps_try {A} (body handler : io A) (catches : exn -> bool) :
  keeps R body -> keeps R handler -> keeps R (try_except body catches handler).
Proof.
  intros Hb Hh w. unfold try_except. specialize (Hb w).
  destruct (body w) as [a w' | e w']; cbn in *; [exact Hb |].
  destruct (catches e); [| exact Hb].
  exact (R_trans _ _ _ Hb (Hh w')).
Qed.

Lemma keeps_print (line : list fragment) : keeps R (print line).
Proof. intros w. apply R_quiet. now split. Qed.

Lemma keeps_subscript (v : pyval) (key : string) : keeps R (subscript v key).
Proof.
  intros w. unfold subscript.
  destruct v as [| | | | | | d]; try apply R_refl.
  destruct (dict_get d key); apply R_refl.
Qed.

Lemma keeps_as_float (v : pyval) : keeps R (as_float v).
Proof. intros w. destruct v; apply R_refl. Qed.

Lemma keeps_int_of (s : string) : keeps R (int_of s).
Proof. intros w. unfold int_of. destruct (py_int s); apply R_refl. Qed.

Lemma keeps_float_of (s : string) : keeps R (float_of s).
Proof. intros w. unfold float_of. destruct (py_float s); apply R_refl. Qed.

Lemma keeps_map_io {A B} (f : A -> io B) (l : list A) :
  (forall a, keeps R (f a)) -> keeps R (map_io f l).
Proof.
  intros Hf. induction l as [| a l IH]; cbn [map_io]; [apply keeps_ret |].
  apply keeps_bind; [apply Hf |]. intros b.
  apply keeps_bind; [exact IH |]. intros bs. apply keeps_ret.
Qed.

Lemma keeps_for_each {A} (f : A -> io unit) (l : list A) :
  (forall a, keeps R (f a)) -> keeps R (for_each f l).
Proof.
  intros Hf. induction l as [| a l IH]; cbn [for_each]; [apply keeps_ret |].
  apply keeps_bind; [apply Hf | intros _; exact IH].
Qed.

Lemma keeps_with_fuel {A} (body : nat -> io A) :
  (forall fuel, keeps R (body fuel)) -> keeps R (with_fuel body).
Proof. intros H w. apply H. Qed.

Lemma keeps_floats (data : list pyval) {A} (k : list float -> io A) :
  (forall xs, keeps R (k xs)) -> keeps R (bind (map_io as_float data) k).
Proof.
  intros Hk. apply keeps_bind; [| exact Hk].
  apply keeps_map_io, keeps_as_float.
Qed.

Lemma keeps_titles_rated (r : float) (items : dict) :
  keeps R (titles_rated r items).
Proof.
  induction items as [| [title details] items IH]; cbn [titles_rated];
    [apply keeps_ret |].
  apply keeps_bind; [apply keeps_subscript |]. intros rating.
  apply keeps_bind; [apply keeps_as_float |]. intros x.
  apply keeps_bind; [exact IH |]. intros titles. apply keeps_ret.
Qed.

Lemma keeps_list_movies (movies : dict) : keeps R (list_movies movies).
Proof.
  unfold list_movies. destruct (dict_is_empty movies); [apply keeps_print |].
  apply keeps_bind; [apply keeps_print |]. intros _.
  apply keeps_for_each. intros item.
  apply keeps_bind; [apply keeps_subscript |]. intros rating.
  apply keeps_bind; [apply keeps_subscript |]. intros year.
  apply keeps_print.
Qed.

Lemma keeps_display_statistics (movies : dict) :
  keeps R (display_statistics movies).
Proof.
  unfold display_statistics.
  destruct (dict_is_empty movies); [apply keeps_print |].
  apply keeps_bind; [apply keeps_map_io; intros item; apply keeps_subscript |].
  intros [| rating ratings]; [apply keeps_print |].
  apply keeps_bind.
  { unfold statistics_mean. destruct (forallb is_number _); [| apply keeps_raise].
    apply keeps_floats. intros [| x xs]; [apply keeps_raise | apply keeps_ret]. }
  intros mean. apply keeps_bind.
  { unfold statistics_median.
    apply keeps_floats. intros [| x xs]; [apply keeps_raise | apply keeps_ret]. }
  intros median. apply keeps_bind.
  { unfold py_max.
    apply keeps_floats. intros [| x xs]; [apply keeps_raise | apply keeps_ret]. }
  intros max_rating. apply keeps_bind.
  { unfold py_min.
    apply keeps_floats. intros [| x xs]; [apply keeps_raise | apply keeps_ret]. }
  intros min_rating.
  apply keeps_bind; [apply keeps_titles_rated |]. intros best.
  apply keeps_bind; [apply keeps_titles_rated |]. intros worst.
  repeat (apply keeps_bind; [apply keeps_print |]; intros _).
  apply keeps_print.
Qed.

Lemma keeps_title_loop (fuel : nat) :
  forall title, keeps R (title_loop fuel title).
Proof.
  induction fuel as [| fuel IH]; intros title; cbn [title_loop];
    destruct (str_is_empty title); try apply keeps_ret; try apply keeps_raise.
  apply keeps_bind; [apply R_input | intros line; apply IH].
Qed.

Lemma keeps_add_movie (movies : dict) : keeps R (add_movie movies).
Proof.
  unfold add_movie.
  apply keeps_bind; [apply R_input |]. intros line.
  apply keeps_bind; [apply keeps_with_fuel; intros fuel; apply keeps_title_loop |].
  intros title. apply keeps_bind.
  { apply keeps_try.
    - apply keeps_bind; [apply R_input |]. intros r.
      apply keeps_bind; [apply keeps_float_of |]. intros x.
      destruct (negb _); [apply keeps_raise | apply keeps_ret].
    - apply keeps_bind; [apply keeps_print | intros _; apply keeps_ret]. }
  intros [rating |]; [| apply keeps_ret].
  apply keeps_bind.
  { apply keeps_try.
    - apply keeps_bind; [apply R_input |]. intros y.
      apply keeps_bind; [apply keeps_int_of |]. intros n.
      destruct (_ || _); [apply keeps_raise | apply keeps_ret].
    - apply keeps_bind; [apply keeps_print | intros _; apply keeps_ret]. }
  intros [year |]; [| apply keeps_ret].
  apply keeps_bind; [apply R_save |]. intros _.
  apply keeps_bind; [apply keeps_print | intros _; apply keeps_ret].
Qed.

Lemma keeps_delete_movie (movies : dict) : keeps R (delete_movie movies).
Proof.
  unfold delete_movie.
  apply keeps_bind; [apply R_input |]. intros line.
  destruct (dict_contains movies (strip line)).
  - apply keeps_bind; [apply R_save |]. intros _.
    apply keeps_bind; [apply keeps_print | intros _; apply keeps_ret].
  - apply keeps_bind; [apply keeps_print | intros _; apply keeps_ret].
Qed.

Lemma keeps_menu_pass (movies : dict) : keeps R (menu_pass movies).
Proof.
  unfold menu_pass.
  repeat (apply keeps_bind; [apply keeps_print |]; intros _).
  apply keeps_bind.
  { apply keeps_try.
    - apply keeps_bind; [apply R_input |]. intros line.
      apply keeps_bind; [apply keeps_int_of | intros n; apply keeps_ret].
    - apply keeps_bind; [apply keeps_print | intros _; apply keeps_ret]. }
  intros [choice |]; [| apply keeps_ret].
  destruct (choice =? 0).
  { apply keeps_bind; [apply keeps_print | intros _; apply keeps_ret]. }
  destruct (choice =? 1).
  { apply keeps_bind; [apply keeps_list_movies | intros _; apply keeps_ret]. }
  destruct (choice =? 2).
  { apply keeps_bind; [apply keeps_add_movie | intros m; apply keeps_ret]. }
  destruct (choice =? 3).
  { apply keeps_bind; [apply keeps_delete_movie | intros m; apply keeps_ret]. }
  destruct (choice =? 4).
  { apply keeps_bind; [apply keeps_display_statistics | intros _; apply keeps_ret]. }
  apply keeps_bind; [apply keeps_print | intros _; apply keeps_ret].
Qed.

Lemma keeps_menu_loop (fuel : nat) :
  forall movies, keeps R (menu_loop fuel movies).
Proof.
  induction fuel as [| fuel IH]; intros movies; cbn [menu_loop];
    [apply keeps_raise |].
  apply keeps_bind; [apply keeps_menu_pass |].
  intros [| m]; [apply keeps_ret | apply IH].
Qed.

Lemma keeps_main : keeps R main.
Proof.
  unfold main. apply keeps_bind; [exact R_load |]. intros movies.
  apply keeps_with_fuel. intros fuel. apply keeps_menu_loop.
Qed.

End Frame.

(** X15.  [list_movies] and [display_statistics] only print: whether they
    return or raise (on a malformed entry), they have read no input and
    every file is as it was. *)
Theorem listing_and_statistics_only_print (movies : dict) (w : world) :
  quiet w (world_after (list_movies movies w)) /\
  quiet w (world_after (display_statistics movies w)).
Proof.
  split.
  - apply (keeps_list_movies quiet quiet_refl quiet_trans (fun _ _ H => H)).
  - apply (keeps_display_statistics quiet quiet_refl quiet_trans
             (fun _ _ H => H)).
Qed.

Lemma input_disk (prompt : string) (w : world) :
  disk (world_after (input prompt w)) = disk w.
Proof. unfold input. now destruct (stdin w). Qed.

Lemma load_movies_disk (file_name : string) (w : world) :
  disk (world_after (load_movies file_name w)) = disk w.
Proof.
  unfold load_movies, try_except, bind, open_and_load.
  destruct (disk w !! file_name) as [f |]; cbn; [| reflexivity].
  destruct (denied f); [reflexivity |].
  destruct (holds f) as [| j]; cbn; [reflexivity |].
  now destruct (decode j).
Qed.

(** X16.  [movies.json] is the only file the program ever touches: from
    any disk and on any input, however [main] ends, every other file is
    there or not as before, with the content and the permissions it
    had. *)
Theorem main_touches_only_its_file (w : world) (name : string) :
  name <> FILE_NAME ->
  disk (world_after (main w)) !! name = disk w !! name.
Proof.
  revert name.
  apply (keeps_main untouched_elsewhere
           (fun w => untouched_same_disk w w eq_refl)
           untouched_elsewhere_trans
           (fun w w' H => untouched_same_disk w w' (proj2 H))).
  - intros prompt w0. apply untouched_same_disk, input_disk.
  - intros w0. apply untouched_same_disk, load_movies_disk.
  - intros movies w0 name Hn.
    destruct (save_movies_disk FILE_NAME movies w0) as (w1 & Hs & _ & Hd).
    rewrite Hs. cbn [world_after]. rewrite Hd. unfold disk_after_save.
    destruct (disk w0 !! FILE_NAME) as [f |]; [destruct (denied f) |];
      try reflexivity; now apply lookup_insert_ne.
Qed.

Lemma main_touches_only_its_file_witness :
  disk (world_after
          (main (World ["2"; "Heat"; "8.2"; "1995"; "0"] []
                   {[ "notes.txt" := File false Garbage ]})))
    !! "notes.txt" =
  ({[ "notes.txt" := File false Garbage ]} : gmap string file) !! "notes.txt".
Proof.
  refine (main_touches_only_its_file
            (World ["2"; "Heat"; "8.2"; "1995"; "0"] []
               {[ "notes.txt" := File false Garbage ]})
            "notes.txt" _).
  discriminate.
Defined.

(* ================================================================= *)
(** ** A whole session *)


Lemma dispatch_delete (movies : dict) (w : world) :
  dispatch movies 3 w = bind (delete_movie movies) (fun m => ret (Continue m)) w.
Proof. reflexivity. Qed.


